(** * The image-upload and account gateway of [index.js], embedded in Rocq

    The development follows [src/index.js] (the consolidated server): the
    upload filter and size limit, the object namer, the storage handlers
    (upload, list, serve, delete), the token gate and the account handlers
    (register, login).

    JavaScript strings are modelled as [string] (8-bit code units); the
    operations used by the server ([split], [pop], [startsWith], [includes],
    [toLowerCase], the two regular expressions) are written out below.
    The storage bucket, the [users] table, bcrypt, jsonwebtoken, multer and
    the random source are the server's collaborators: the bucket and the table
    are modelled as in-memory lists, multer as the per-file loop of its
    middleware, jsonwebtoken by its claims and expiry check, and the
    primitives (hash, MAC, wire codec, random bits, backend search) are the
    fields of the class [Collaborators].
    The two upload routes are run as Express runs a route: each function of
    the route is called or skipped by the number of parameters it declares,
    and an error no function takes ends in Express's final handler. *)

From Stdlib Require Import String Ascii List NArith ZArith Lia Bool Arith.
Import ListNotations.
Local Open Scope list_scope.
Local Open Scope string_scope.

Set Warnings "-register-all".

(* ===================================================================== *)
(** * JavaScript string operations *)
(* ===================================================================== *)

Module JsString.

(** [s.startsWith(p)] *)
Fixpoint startsWith (p s : string) : bool :=
  match p, s with
  | EmptyString, _ => true
  | String _ _, EmptyString => false
  | String a p', String b s' => Ascii.eqb a b && startsWith p' s'
  end.

(** [s.includes(p)]: [p] occurs somewhere in [s]. *)
Fixpoint includes (p s : string) : bool :=
  startsWith p s ||
  match s with
  | EmptyString => false
  | String _ s' => includes p s'
  end.

(** [s.endsWith(p)] *)
Definition endsWith (p s : string) : bool :=
  (String.length p <=? String.length s)%nat &&
  String.eqb (substring (String.length s - String.length p) (String.length p) s) p.

(** Does the character [c] occur in [s]? *)
Fixpoint has_char (c : ascii) (s : string) : bool :=
  match s with
  | EmptyString => false
  | String a s' => Ascii.eqb a c || has_char c s'
  end.

(** [s.split(sep)] for a one-character separator. The result of [split] is
    never empty, so it is kept as its first segment and the segments after
    it. *)
Fixpoint split_segments (sep : ascii) (s : string) : string * list string :=
  match s with
  | EmptyString => (EmptyString, [])
  | String a s' =>
      let '(seg, rest) := split_segments sep s' in
      if Ascii.eqb a sep then (EmptyString, seg :: rest)
      else (String a seg, rest)
  end.

Definition split (sep : ascii) (s : string) : list string :=
  let '(seg, rest) := split_segments sep s in seg :: rest.

(** [s.split(sep)[0]] *)
Definition split_first (sep : ascii) (s : string) : string :=
  fst (split_segments sep s).

(** [s.split(sep).pop()] *)
Definition split_pop (sep : ascii) (s : string) : string :=
  let '(seg, rest) := split_segments sep s in last rest seg.

(** [s.split(sep)[i]], [undefined] past the end. *)
Definition split_nth (sep : ascii) (i : nat) (s : string) : option string :=
  nth_error (split sep s) i.

(** [toLowerCase] on one code unit: the ASCII capitals and the Latin-1
    capitals (U+00C0 to U+00DE, U+00D7 apart) move down by 32. *)
Definition lower_ascii (c : ascii) : ascii :=
  let n := nat_of_ascii c in
  if ((65 <=? n) && (n <=? 90))%nat then ascii_of_nat (n + 32)
  else if ((192 <=? n) && (n <=? 222) && negb (n =? 215))%nat
       then ascii_of_nat (n + 32)
  else c.

Fixpoint toLowerCase (s : string) : string :=
  match s with
  | EmptyString => EmptyString
  | String a s' => String (lower_ascii a) (toLowerCase s')
  end.

End JsString.
Import JsString.

(* ===================================================================== *)
(** * Upload validator: [fileFilter] and the size limit *)
(* ===================================================================== *)

(** The file object multer hands to the filter, the storage engine and the
    handlers. [size] is the number of bytes received for the part; it is a
    field of its own (as in multer's file object) so that a large payload is
    described without being built. *)
Record file := {
  originalname : string;
  mimetype : string;
  buffer : string;
  size : N
}.

(** The errors that travel through the upload stage and the handlers. *)
Inductive js_error :=
| MulterError (code : string) (message : string)
| Error (message : string)
| StorageError (message : string)
| JsonWebTokenError (message : string)
| TokenExpiredError (message : string)
| TypeError (message : string).

Definition error_message (e : js_error) : string :=
  match e with
  | MulterError _ m => m
  | Error m => m
  | StorageError m => m
  | JsonWebTokenError m => m
  | TokenExpiredError m => m
  | TypeError m => m
  end.

(** [/jpeg|jpg|png|gif|webp/.test(s)]: the expression has no anchor, so it
    holds as soon as one alternative occurs anywhere in [s]. *)
Definition allowed_alternatives : list string :=
  ["jpeg"; "jpg"; "png"; "gif"; "webp"].

Definition allowed_test (s : string) : bool :=
  existsb (fun alt => includes alt s) allowed_alternatives.

(** [fileFilter]: [None] is [cb(null, true)], [Some e] is [cb(e)]. *)
Definition fileFilter (f : file) : option js_error :=
  let ext := allowed_test (toLowerCase (split_pop "." (originalname f))) in
  let mime := allowed_test (mimetype f) in
  if ext && mime then None
  else Some (Error "Only image files are allowed").

(** [limits: { fileSize: 10 * 1024 * 1024 }] *)
Definition fileSize_limit : N := (10 * 1024 * 1024)%N.

(** What the claim's validator says: the extension, lower-cased, IS one of
    the five names. Used to compare with [fileFilter]. *)
Definition extension_is_listed (name : string) : bool :=
  existsb (String.eqb (toLowerCase (split_pop "." name)))
          ["jpg"; "jpeg"; "png"; "gif"; "webp"].

(** [/\.(jpe?g|png|gif|webp)$/i.test(name)], the filter of [GET /images]:
    the name ends with a dot and one of the five extensions, in any case. *)
Definition image_name_test (name : string) : bool :=
  existsb (fun ext => endsWith (String "." ext) (toLowerCase name))
          ["jpg"; "jpeg"; "png"; "gif"; "webp"].

(* ===================================================================== *)
(** * Object namer: [crypto.randomUUID] and the storage key *)
(* ===================================================================== *)

(** One lower-case hexadecimal digit. *)
Definition hex_digit (n : N) : ascii :=
  nth (N.to_nat (N.land n 15%N))
      ["0"; "1"; "2"; "3"; "4"; "5"; "6"; "7"; "8"; "9";
       "a"; "b"; "c"; "d"; "e"; "f"]%char "0"%char.

(** The two digits of one byte. *)
Definition hex_byte (b : N) : string :=
  String (hex_digit (N.shiftr b 4%N)) (String (hex_digit b) EmptyString).

(** Byte [i] (0 is the first) of a 16-byte random buffer, the buffer read as
    a 128-bit number, most significant byte first. *)
Definition random_byte (bits : N) (i : N) : N :=
  N.land (N.shiftr bits (8 * (15 - i))%N) 255%N.

Fixpoint hex_bytes (bytes : list N) : string :=
  match bytes with
  | [] => EmptyString
  | b :: rest => hex_byte b ++ hex_bytes rest
  end.

(** A version-4 UUID from 16 random bytes: byte 6 carries the version
    ([(b & 0x0f) | 0x40]), byte 8 the variant ([(b & 0x3f) | 0x80]); the text
    is 8-4-4-4-12 hexadecimal digits. *)
Definition uuid_of_bits (bits : N) : string :=
  let b := fun i => random_byte bits i in
  hex_bytes [b 0; b 1; b 2; b 3]%N ++ "-" ++
  hex_bytes [b 4; b 5]%N ++ "-" ++
  hex_bytes [N.lor (N.land (b 6) 15) 64; b 7]%N ++ "-" ++
  hex_bytes [N.lor (N.land (b 8) 63) 128; b 9]%N ++ "-" ++
  hex_bytes [b 10; b 11; b 12; b 13; b 14; b 15]%N.

(** The key [uploadToSupabase] builds: [`${id}.${ext}`] with
    [ext = originalname.split(".").pop()]. *)
Definition storage_key (id originalname : string) : string :=
  id ++ "." ++ split_pop "." originalname.

(* ===================================================================== *)
(** * Responses *)
(* ===================================================================== *)

Inductive json :=
| JNull
| JBool (b : bool)
| JNum (n : N)
| JStr (s : string)
| JArr (items : list json)
| JObj (fields : list (string * json)).

Inductive body :=
| Json (j : json)
| Binary (bytes : string)
| Text (s : string)
| ErrorPage (e : js_error)
| NotFoundPage.

(** A response: the status, the headers the handler sets with [res.set],
    and what it sends. *)
Record response := {
  status : nat;
  headers : list (string * string);
  sent : body
}.

(** [res.status(code).json(j)] *)
Definition res_json (code : nat) (j : json) : response :=
  {| status := code; headers := []; sent := Json j |}.

(** [{ error: msg }] and [{ message: msg }] *)
Definition error_body (msg : string) : json := JObj [("error", JStr msg)].
Definition message_body (msg : string) : json := JObj [("message", JStr msg)].

(** Property lookup in an object literal. *)
Fixpoint obj_get (k : string) (o : list (string * json)) : option json :=
  match o with
  | [] => None
  | (k', v) :: o' => if String.eqb k' k then Some v else obj_get k o'
  end.

(** [{ ...o, k: v }]: the property keeps its place when [o] has it. *)
Fixpoint obj_set (k : string) (v : json) (o : list (string * json))
  : list (string * json) :=
  match o with
  | [] => [(k, v)]
  | (k', v') :: o' =>
      if String.eqb k' k then (k, v) :: o' else (k', v') :: obj_set k v o'
  end.

Definition json_get (k : string) (j : json) : option json :=
  match j with
  | JObj o => obj_get k o
  | _ => None
  end.

(** [a || b] on strings. *)
Definition or_else (a : option string) (b : string) : string :=
  match a with
  | Some v => if String.eqb v "" then b else v
  | None => b
  end.

(* ===================================================================== *)
(** * The world: bucket, table, random source; the collaborators *)
(* ===================================================================== *)

(** An object of the bucket [uploads]. *)
Record entry := {
  name : string;
  content : string;
  contentType : string
}.

(** A row of the table [users], with the columns the server names. *)
Record user := {
  id : N;
  email : string;
  username : string;
  full_name : string;
  role : string;
  password : option string;
  bio : option string;
  updated_at : option string
}.

(** The bucket lists its objects newest first; [draws] counts the values
    taken from the random source. *)
Record world := {
  uploads : list entry;
  users : list user;
  draws : nat
}.

(** The payload of a token, and a token once its three parts are decoded
    (the header is the constant HS256/JWT header). *)
Record claims := {
  userId : N;
  iat : N;
  exp : N
}.

Record jws := {
  payload : claims;
  signature : string
}.

(** Configuration and primitives the server is given. Nothing is assumed of
    them here; the few facts a theorem needs are hypotheses of that
    theorem. *)
Class Collaborators := {
  (** [process.env.BASE_URL] *)
  BASE_URL : option string;
  (** [process.env.JWT_SECRET] *)
  jwt_secret : string;
  (** the [k]-th 128-bit value of the secure random source *)
  random_bits : nat -> N;
  (** [getPublicUrl(key).data.publicUrl] *)
  publicUrl : string -> string;
  (** what the bucket answers to [list("", { search })] *)
  storage_search : string -> list entry -> list entry;
  (** [bcrypt.hash(plain, 10)] with the salt drawn, [bcrypt.compare] *)
  bcrypt_hash : N -> string -> string;
  bcrypt_compare : string -> string -> bool;
  (** HMAC-SHA256 of the signing input, and the compact serialization *)
  hs256 : string -> claims -> string;
  jwt_encode : jws -> string;
  jwt_decode : string -> option jws
}.

(* ===================================================================== *)
(** * Handlers as state-and-exception computations *)
(* ===================================================================== *)

(** An [async] function body: it reads and writes the world, and returns or
    throws. *)
Definition M (A : Type) : Type := world -> (js_error + A) * world.

Definition ret {A} (a : A) : M A := fun w => (inr a, w).

Definition bind {A B} (c : M A) (k : A -> M B) : M B :=
  fun w =>
    match c w with
    | (inl e, w') => (inl e, w')
    | (inr a, w') => k a w'
    end.

Definition throw {A} (e : js_error) : M A := fun w => (inl e, w).

(** [try { c } catch (err) { h err }] *)
Definition try_catch {A} (c : M A) (h : js_error -> M A) : M A :=
  fun w =>
    match c w with
    | (inl e, w') => h e w'
    | (inr a, w') => (inr a, w')
    end.

Declare Scope async_scope.
Delimit Scope async_scope with async.
Notation "x <- c ;; k" := (bind c (fun x => k))
  (at level 61, c at next level, right associativity) : async_scope.
Local Open Scope async_scope.

(** [await Promise.all(ps)]: every computation of the list is started, in
    order, and runs to its end whatever the others do; the result is the list
    of the values, in the order of [ps], when all of them returned, and the
    rejection of the first one that threw otherwise. *)
Fixpoint promise_all {A} (ps : list (M A)) : M (list A) :=
  match ps with
  | [] => ret []
  | p :: rest =>
      fun w =>
        let '(r, w1) := p w in
        let '(rs, w2) := promise_all rest w1 in
        (match r, rs with
         | inl e, _ => inl e
         | inr _, inl e => inl e
         | inr a, inr l => inr (a :: l)
         end, w2)
  end.

(* ===================================================================== *)
(** * Storage adapter: the bucket [uploads] *)
(* ===================================================================== *)

Section Storage.
Context {collab : Collaborators}.

Definition has_key (key : string) (bucket : list entry) : bool :=
  existsb (fun e => String.eqb (name e) key) bucket.

(** [upload(key, body, { contentType, upsert: false })]: the answer is the
    [error] of [{ data, error }]; an existing key is refused. *)
Definition storage_upload (key data ctype : string) : M (option js_error) :=
  fun w =>
    if has_key key (uploads w)
    then (inr (Some (StorageError "The resource already exists")), w)
    else (inr None,
          {| uploads := {| name := key; content := data; contentType := ctype |}
                          :: uploads w;
             users := users w;
             draws := draws w |}).

(** [download(key)]: the object, or [None] for [{ error }]. *)
Definition storage_download (key : string) : M (option entry) :=
  fun w => (inr (find (fun e => String.eqb (name e) key) (uploads w)), w).

(** [list("", { limit, sortBy: created_at desc })] *)
Definition storage_list (limit : nat) : M (list entry) :=
  fun w => (inr (firstn limit (uploads w)), w).

(** [list("", { search })] *)
Definition storage_list_search (query : string) : M (list entry) :=
  fun w => (inr (storage_search query (uploads w)), w).

(** [remove(keys)] *)
Definition storage_remove (keys : list string) : M unit :=
  fun w =>
    (inr tt,
     {| uploads := filter (fun e => negb (existsb (String.eqb (name e)) keys))
                          (uploads w);
        users := users w;
        draws := draws w |}).

(** [crypto.randomUUID()] *)
Definition randomUUID : M string :=
  fun w =>
    (inr (uuid_of_bits (random_bits (draws w))),
     {| uploads := uploads w; users := users w; draws := S (draws w) |}).

(* ===================================================================== *)
(** * Upload stage (multer) and upload orchestrator *)
(* ===================================================================== *)

(** The loop of multer's middleware over the file parts of a request, in the
    order they arrive: a part beyond the count the route allows is
    [LIMIT_UNEXPECTED_FILE]; then [fileFilter] decides from the name and the
    declared type; then the part is read into memory and a part that
    exceeds [limits.fileSize] is [LIMIT_FILE_SIZE]. The first error ends the
    request; no file reaches the handler then. *)
Fixpoint multer_files (filesLeft : nat) (parts : list file) {struct parts}
  : js_error + list file :=
  match parts with
  | [] => inr []
  | f :: rest =>
      match filesLeft with
      | O => inl (MulterError "LIMIT_UNEXPECTED_FILE" "Unexpected field")
      | S remaining =>
          match fileFilter f with
          | Some e => inl e
          | None =>
              if (fileSize_limit <? size f)%N
              then inl (MulterError "LIMIT_FILE_SIZE" "File too large")
              else match multer_files remaining rest with
                   | inl e => inl e
                   | inr fs => inr (f :: fs)
                   end
          end
      end
  end.

(** [upload.single("image")] gives [req.file], [upload.array("images", 10)]
    gives [req.files]. *)
Definition upload_single (parts : list file) : js_error + option file :=
  match multer_files 1 parts with
  | inl e => inl e
  | inr fs => inr (hd_error fs)
  end.

Definition upload_array (maxCount : nat) (parts : list file)
  : js_error + list file :=
  multer_files maxCount parts.

(** [err instanceof multer.MulterError && err.code === code] *)
Definition is_multer_error (code : string) (err : js_error) : bool :=
  match err with
  | MulterError c _ => String.eqb c code
  | _ => false
  end.

(** The body of [handleUploadError], for an error in [err]. *)
Definition handleUploadError (err : js_error) : response :=
  if is_multer_error "LIMIT_FILE_SIZE" err
  then res_json 400 (error_body "File too large. Max 10MB.")
  else if includes "Only image files" (error_message err)
  then res_json 400 (error_body (error_message err))
  else res_json 500 (error_body "Upload failed").

(** What [uploadToSupabase] returns. *)
Record stored := {
  stored_id : string;
  stored_filename : string;
  stored_url : string;
  stored_size : N;
  stored_mimetype : string
}.

Definition stored_fields (r : stored) : list (string * json) :=
  [("id", JStr (stored_id r)); ("filename", JStr (stored_filename r));
   ("url", JStr (stored_url r)); ("size", JNum (stored_size r));
   ("mimetype", JStr (stored_mimetype r))].

Definition uploadToSupabase (f : file) : M stored :=
  id <- randomUUID ;;
  let filename := storage_key id (originalname f) in
  error <- storage_upload filename (buffer f) (mimetype f) ;;
  match error with
  | Some e => throw e
  | None =>
      ret {| stored_id := id;
             stored_filename := filename;
             stored_url := publicUrl filename;
             stored_size := size f;
             stored_mimetype := mimetype f |}
  end.

(** [BASE_URL ? `${BASE_URL}/file/${filename}` : url]: the first branch is
    taken when [BASE_URL] is defined and is not the empty string. *)
Definition file_url (filename url : string) : string :=
  match BASE_URL with
  | Some base => if String.eqb base "" then url else base ++ "/file/" ++ filename
  | None => url
  end.

(** The handler of [POST /upload], given [req.file]. *)
Definition upload_handler (req_file : option file) : M response :=
  try_catch
    (match req_file with
     | None => ret (res_json 400 (error_body "No file uploaded"))
     | Some f =>
         result <- uploadToSupabase f ;;
         let fileUrl := file_url (stored_filename result) (stored_url result) in
         ret (res_json 200
                (JObj (obj_set "url" (JStr fileUrl)
                         (("message", JStr "Uploaded!") :: stored_fields result))))
     end)
    (fun _ => ret (res_json 500 (error_body "Failed to upload image"))).

(** The handler of [POST /upload-multiple], given [req.files]. *)
Definition upload_multiple_handler (req_files : list file) : M response :=
  try_catch
    (match req_files with
     | [] => ret (res_json 400 (error_body "No files uploaded"))
     | _ =>
         uploads <- promise_all (map uploadToSupabase req_files) ;;
         let files :=
           map (fun f =>
                  JObj [("id", JStr (stored_id f));
                        ("filename", JStr (stored_filename f));
                        ("url", JStr (file_url (stored_filename f) (stored_url f)))])
               uploads in
         ret (res_json 200
                (JObj [("message", JStr "Uploaded successfully");
                       ("files", JArr files)]))
     end)
    (fun _ => ret (res_json 500 (error_body "Failed to upload images"))).

(* ===================================================================== *)
(** * The upload routes, as Express runs them *)
(* ===================================================================== *)

(** The request as the functions of a route see it: the file parts that
    arrive, and what multer leaves in [req.file] and [req.files]. *)
Record request := {
  req_parts : list file;
  req_file : option file;
  req_files : list file
}.

(** The first argument a route function is called with: the error that is
    travelling, for a function that declares four parameters; the request,
    for any other function, whatever name it gives its first parameter. *)
Inductive first_arg :=
| ArgRequest (req : request)
| ArgError (e : js_error).

(** What a route function does: it answers, or calls [next()], or calls
    [next(err)]; a function that throws is taken as [next(err)]. *)
Inductive step :=
| Answer (r : response)
| Next (req : request)
| NextError (e : js_error).

(** A route function: the number of parameters it declares ([fn.length])
    and its body. *)
Record layer := {
  fn_length : nat;
  fn_call : first_arg -> M step
}.

(** The page of Express's final handler for an error without a status:
    500, and an HTML page made from the error. The 404 page is what a route
    gives when no function answers. *)
Definition final_handler (e : js_error) : response :=
  {| status := 500; headers := []; sent := ErrorPage e |}.

Definition not_found : response :=
  {| status := 404; headers := []; sent := NotFoundPage |}.

(** The functions of a route, in order. While no error travels, a function
    of more than three parameters is skipped and any other is called with
    the request; while an error travels, only a function of exactly four
    parameters is called, with the error. *)
Fixpoint express_route (stack : list layer) (err : option js_error)
         (req : request) {struct stack} : M response :=
  match stack with
  | [] =>
      match err with
      | Some e => ret (final_handler e)
      | None => ret not_found
      end
  | l :: rest =>
      let called (arg : first_arg) : M response :=
        fun w =>
          match fn_call l arg w with
          | (inr (Answer r), w') => (inr r, w')
          | (inr (Next req'), w') => express_route rest None req' w'
          | (inr (NextError e), w') => express_route rest (Some e) req w'
          | (inl e, w') => express_route rest (Some e) req w'
          end in
      match err with
      | Some e =>
          if Nat.eqb (fn_length l) 4 then called (ArgError e)
          else express_route rest err req
      | None =>
          if Nat.ltb 3 (fn_length l) then express_route rest None req
          else called (ArgRequest req)
      end
  end.

(** [upload.single("image")] and [upload.array("images", 10)]: middleware
    of three parameters; an error of the upload stage is [next(err)]. *)
Definition upload_single_fn : layer :=
  {| fn_length := 3;
     fn_call := fun arg =>
       match arg with
       | ArgRequest req =>
           match upload_single (req_parts req) with
           | inl e => ret (NextError e)
           | inr f => ret (Next {| req_parts := req_parts req; req_file := f;
                                   req_files := req_files req |})
           end
       | ArgError e => ret (NextError e)
       end |}.

Definition upload_array_fn (maxCount : nat) : layer :=
  {| fn_length := 3;
     fn_call := fun arg =>
       match arg with
       | ArgRequest req =>
           match upload_array maxCount (req_parts req) with
           | inl e => ret (NextError e)
           | inr fs => ret (Next {| req_parts := req_parts req;
                                    req_file := req_file req; req_files := fs |})
           end
       | ArgError e => ret (NextError e)
       end |}.

(** What [err.message.includes(...)] throws when [err.message] is
    undefined (the text is the one of a current V8). *)
Definition includes_of_undefined : js_error :=
  TypeError "Cannot read properties of undefined (reading 'includes')".

(** [handleUploadError] as the routes list it. It is declared
    [(err, req, res)], three parameters. Called with the request in [err],
    [err instanceof multer.MulterError] is false and [err.message] is
    undefined, so [err.message.includes(...)] throws a [TypeError]. *)
Definition handleUploadError_fn : layer :=
  {| fn_length := 3;
     fn_call := fun arg =>
       match arg with
       | ArgError e => ret (Answer (handleUploadError e))
       | ArgRequest _ => throw includes_of_undefined
       end |}.

(** The two handlers, [async (req, res) => ...]: two parameters. *)
Definition upload_handler_fn : layer :=
  {| fn_length := 2;
     fn_call := fun arg =>
       match arg with
       | ArgRequest req => r <- upload_handler (req_file req) ;; ret (Answer r)
       | ArgError e => ret (NextError e)
       end |}.

Definition upload_multiple_handler_fn : layer :=
  {| fn_length := 2;
     fn_call := fun arg =>
       match arg with
       | ArgRequest req =>
           r <- upload_multiple_handler (req_files req) ;; ret (Answer r)
       | ArgError e => ret (NextError e)
       end |}.

Definition incoming (parts : list file) : request :=
  {| req_parts := parts; req_file := None; req_files := [] |}.

(** [app.post("/upload", upload.single("image"), handleUploadError,
    async (req, res) => ...)] and the same for [/upload-multiple]. *)
Definition post_upload (parts : list file) : M response :=
  express_route [upload_single_fn; handleUploadError_fn; upload_handler_fn]
                None (incoming parts).

Definition post_upload_multiple (parts : list file) : M response :=
  express_route [upload_array_fn 10; handleUploadError_fn;
                 upload_multiple_handler_fn]
                None (incoming parts).

(* ===================================================================== *)
(** * Listing, serving and deleting *)
(* ===================================================================== *)

Definition image_item (f : entry) : json :=
  JObj [("id", JStr (split_first "." (name f)));
        ("filename", JStr (name f));
        ("url", JStr (publicUrl (name f)))].

(** [GET /images] *)
Definition get_images : M response :=
  try_catch
    (files <- storage_list 100 ;;
     let images := filter (fun f => image_name_test (name f)) files in
     ret (res_json 200 (JArr (map image_item images))))
    (fun _ => ret (res_json 500 (error_body "Failed to load images"))).

(** [GET /file/:filename] *)
Definition get_file (filename : string) : M response :=
  try_catch
    (found <- storage_download filename ;;
     match found with
     | None => ret (res_json 404 (error_body "File not found"))
     | Some data =>
         ret {| status := 200;
                headers := [("Content-Type", "image/jpeg")];
                sent := Binary (content data) |}
     end)
    (fun _ => ret (res_json 500 (error_body "Failed to serve file"))).

(** The entry [DELETE /images/:id] picks among the search results. *)
Definition find_by_id (id : string) (files : list entry) : option entry :=
  find (fun f => startsWith (id ++ ".") (name f)) files.

(** [DELETE /images/:id] *)
Definition delete_image (id : string) : M response :=
  try_catch
    (files <- storage_list_search id ;;
     match find_by_id id files with
     | None => ret (res_json 404 (error_body "File not found"))
     | Some f =>
         _ <- storage_remove [name f] ;;
         ret (res_json 200
                (JObj [("message", JStr "Deleted"); ("filename", JStr (name f))]))
     end)
    (fun _ => ret (res_json 500 (error_body "Failed to delete"))).

End Storage.

(* ===================================================================== *)
(** * Token service (jsonwebtoken) and the auth gate *)
(* ===================================================================== *)

Section Accounts.
Context {collab : Collaborators}.

(** [Math.floor(Date.now() / 1000)], the clock in milliseconds. *)
Definition seconds (now_ms : N) : N := (now_ms / 1000)%N.

(** [ms("1h") / 1000] *)
Definition one_hour : N := 3600%N.

(** [jwt.sign({ userId }, secret, { expiresIn: "1h" })] at the clock [now]:
    [iat] is the clock in whole seconds and [exp] is [iat] plus one hour. *)
Definition jwt_sign (uid : N) (secret : string) (now : N) : string :=
  let c := {| userId := uid; iat := seconds now;
              exp := (seconds now + one_hour)%N |} in
  jwt_encode {| payload := c; signature := hs256 secret c |}.

(** [jwt.verify(token, secret)] at the clock [now]: the token must be given
    and well formed, its signature must be the MAC of its payload under the
    secret, and the clock in seconds must be before [exp]. *)
Definition jwt_verify (token secret : string) (now : N) : js_error + claims :=
  if String.eqb token "" then inl (JsonWebTokenError "jwt must be provided")
  else
    match jwt_decode token with
    | None => inl (JsonWebTokenError "jwt malformed")
    | Some t =>
        if negb (String.eqb (signature t) (hs256 secret (payload t)))
        then inl (JsonWebTokenError "invalid signature")
        else if (exp (payload t) <=? seconds now)%N
        then inl (TokenExpiredError "jwt expired")
        else inr (payload t)
    end.

(** A row as the JSON object the table client returns. *)
Definition json_opt (s : option string) : json :=
  match s with
  | Some v => JStr v
  | None => JNull
  end.

Definition row_json (u : user) : list (string * json) :=
  [("id", JNum (id u)); ("email", JStr (email u));
   ("username", JStr (username u)); ("full_name", JStr (full_name u));
   ("role", JStr (role u)); ("password", json_opt (password u));
   ("bio", json_opt (bio u)); ("updated_at", json_opt (updated_at u))].

(** [.select("a, b, c")] keeps the named columns. *)
Definition select_columns (cols : list string) (row : list (string * json))
  : list (string * json) :=
  filter (fun kv => existsb (String.eqb (fst kv)) cols) row.

(** [.single()]: the row when exactly one row matches, no data otherwise. *)
Definition single {A} (rows : list A) : option A :=
  match rows with
  | [r] => Some r
  | _ => None
  end.

(** [from("users").select(...).eq("id", uid).single()] *)
Definition user_by_id (uid : N) : M (option user) :=
  fun w => (inr (single (filter (fun u => N.eqb (id u) uid) (users w))), w).

(** [from("users").select(...).eq("email", e).single()] *)
Definition user_by_email (e : string) : M (option user) :=
  fun w => (inr (single (filter (fun u => String.eqb (email u) e) (users w))), w).

(** The outcome of the gate: a response, or [next()] with [req.user]. *)
Inductive gate :=
| Reject (r : response)
| Continue (req_user : json).

(** [authenticateToken], given the [Authorization] header and the clock. *)
Definition authenticateToken (auth : option string) (now : N) : M gate :=
  match auth with
  | None => ret (Reject (res_json 401 (error_body "No token")))
  | Some header =>
      if String.eqb header "" || negb (startsWith "Bearer " header)
      then ret (Reject (res_json 401 (error_body "No token")))
      else
        try_catch
          (decoded <-
             (match split_nth " " 1 header with
              | None => throw (JsonWebTokenError "jwt must be provided")
              | Some token =>
                  match jwt_verify token jwt_secret now with
                  | inl e => throw e
                  | inr c => ret c
                  end
              end) ;;
           found <- user_by_id (userId decoded) ;;
           match found with
           | None => ret (Reject (res_json 403 (error_body "User not found")))
           | Some u =>
               ret (Continue
                      (JObj (select_columns
                               ["id"; "email"; "username"; "full_name"; "role"]
                               (row_json u))))
           end)
          (fun _ => ret (Reject (res_json 403 (error_body "Invalid token"))))
  end.

(* ===================================================================== *)
(** * Account service: register and login *)
(* ===================================================================== *)

(** [req.body] of [POST /register] and [POST /login]; a property that is
    absent is [None]. *)
Record account_body := {
  body_email : option string;
  body_username : option string;
  body_full_name : option string;
  body_role : option string;
  body_password : option string
}.

(** [bcrypt.hash(plain, 10)]: the salt comes from the random source. *)
Definition bcrypt_hash_salted (plain : string) : M string :=
  fun w =>
    (inr (bcrypt_hash (random_bits (draws w)) plain),
     {| uploads := uploads w; users := users w; draws := S (draws w) |}).

(** The identifier the table gives a new row. *)
Definition fresh_id (rows : list user) : N :=
  (1 + fold_right N.max 0 (map id rows))%N.

(** [from("users").insert([row]).select()]: the row is stored with the
    columns the table fills in, and comes back with all its columns. The
    answer is [{ data, error }]. *)
Definition insert_user (uname fname mail rl hash : string)
  : M (string + list (list (string * json))) :=
  fun w =>
    let u := {| id := fresh_id (users w); email := mail; username := uname;
                full_name := fname; role := rl; password := Some hash;
                bio := None; updated_at := None |} in
    (inr (inr [row_json u]),
     {| uploads := uploads w; users := (users w ++ [u])%list; draws := draws w |}).

(** [["user", "admin", "moderator"].includes(role) ? role : "user"] *)
Definition assigned_role (r : option string) : string :=
  match r with
  | Some v =>
      if existsb (String.eqb v) ["user"; "admin"; "moderator"] then v else "user"
  | None => "user"
  end.

(** [POST /register] *)
Definition register (b : account_body) : M response :=
  try_catch
    (match body_email b, body_password b with
     | Some mail, Some plain =>
         if String.eqb mail "" || String.eqb plain ""
         then ret (res_json 400 (error_body "Email and password required"))
         else
           existing <- user_by_email mail ;;
           match existing with
           | Some _ => ret (res_json 409 (error_body "Email already exists"))
           | None =>
               password_hash <- bcrypt_hash_salted plain ;;
               answer <- insert_user
                           (or_else (body_username b) (split_first "@" mail))
                           (or_else (body_full_name b) "")
                           mail
                           (assigned_role (body_role b))
                           password_hash ;;
               match answer with
               | inl error => ret (res_json 400 (error_body error))
               | inr data =>
                   ret (res_json 201
                          (JObj [("message", JStr "User created");
                                 ("user", match data with
                                          | row :: _ => JObj row
                                          | [] => JNull
                                          end)]))
               end
           end
     | _, _ => ret (res_json 400 (error_body "Email and password required"))
     end)
    (fun _ => ret (res_json 500 (error_body "Server error"))).

(** [POST /login], at the clock [now]. *)
Definition login (b : account_body) (now : N) : M response :=
  try_catch
    (match body_email b, body_password b with
     | Some mail, Some plain =>
         if String.eqb mail "" || String.eqb plain ""
         then ret (res_json 400 (message_body "Email and password are required"))
         else
           found <- user_by_email mail ;;
           match found with
           | None => ret (res_json 401 (message_body "Invalid email or password"))
           | Some u =>
               match password u with
               | None =>
                   ret (res_json 500
                          (message_body "Password not set correctly for this user."))
               | Some hash =>
                   if String.eqb hash ""
                   then ret (res_json 500
                               (message_body "Password not set correctly for this user."))
                   else if negb (bcrypt_compare plain hash)
                   then ret (res_json 401 (message_body "Invalid email or password"))
                   else
                     let token := jwt_sign (id u) jwt_secret now in
                     ret (res_json 200 (JObj [("token", JStr token)]))
               end
           end
     | _, _ => ret (res_json 400 (message_body "Email and password are required"))
     end)
    (fun _ => ret (res_json 500 (message_body "Login failed"))).

(* ===================================================================== *)
(** * Profile and logout, behind the gate *)
(* ===================================================================== *)

(** [req.user.id] *)
Definition req_user_id (req_user : json) : option N :=
  match json_get "id" req_user with
  | Some (JNum n) => Some n
  | _ => None
  end.

(** A route behind [authenticateToken]: the gate answers, or the handler
    runs with [req.user]. *)
Definition behind_gate (auth : option string) (now : N)
           (handler : json -> M response) : M response :=
  g <- authenticateToken auth now ;;
  match g with
  | Reject r => ret r
  | Continue req_user => handler req_user
  end.

(** [GET /me] *)
Definition get_me (auth : option string) (now : N) : M response :=
  behind_gate auth now (fun req_user =>
    try_catch
      (found <- match req_user_id req_user with
                | Some uid => user_by_id uid
                | None => ret None
                end ;;
       match found with
       | None => ret (res_json 404 (error_body "User not found"))
       | Some u =>
           ret (res_json 200
                  (JObj (select_columns
                           ["id"; "username"; "full_name"; "role"; "bio";
                            "updated_at"]
                           (row_json u))))
       end)
      (fun _ => ret (res_json 500 (error_body "Failed to fetch profile")))).

(** [POST /logout] *)
Definition logout (auth : option string) (now : N) : M response :=
  behind_gate auth now (fun _ =>
    ret (res_json 200 (message_body "Logged out successfully"))).

End Accounts.

(* ===================================================================== *)
(** * A concrete set of collaborators, to run the handlers on examples *)
(* ===================================================================== *)

Module Demo.

(** A number written as that many strokes, and read back. *)
Fixpoint strokes (n : nat) : string :=
  match n with
  | O => EmptyString
  | S k => String "1" (strokes k)
  end.

Fixpoint read_strokes (s : string) : N * string :=
  match s with
  | EmptyString => (0%N, EmptyString)
  | String a s' =>
      if Ascii.eqb a "1"
      then let '(n, rest) := read_strokes s' in (N.succ n, rest)
      else (0%N, s)
  end.

Definition read_dot (s : string) : option string :=
  match s with
  | EmptyString => None
  | String a s' => if Ascii.eqb a "." then Some s' else None
  end.

(** A toy compact serialization: the three numbers in strokes, then the
    signature, with dots between. *)
Definition encode (t : jws) : string :=
  strokes (N.to_nat (userId (payload t))) ++ "." ++
  strokes (N.to_nat (iat (payload t))) ++ "." ++
  strokes (N.to_nat (exp (payload t))) ++ "." ++ signature t.

Definition decode (s : string) : option jws :=
  let '(u, s1) := read_strokes s in
  match read_dot s1 with
  | None => None
  | Some s2 =>
      let '(i, s3) := read_strokes s2 in
      match read_dot s3 with
      | None => None
      | Some s4 =>
          let '(e, s5) := read_strokes s4 in
          match read_dot s5 with
          | None => None
          | Some sig =>
              Some {| payload := {| userId := u; iat := i; exp := e |};
                      signature := sig |}
          end
      end
  end.

(** A toy hash: a tag, the salt byte, and the text with every character
    moved by one. *)
Fixpoint shift_text (s : string) : string :=
  match s with
  | EmptyString => EmptyString
  | String a s' => String (ascii_of_nat (S (nat_of_ascii a))) (shift_text s')
  end.

Definition toy_hash (salt : N) (plain : string) : string :=
  "$2b$10$" ++ hex_byte salt ++ shift_text plain.

Definition toy_compare (plain hash : string) : bool :=
  String.eqb (substring 9 (String.length hash - 9) hash) (shift_text plain).

Definition toy_mac (secret : string) (c : claims) : string :=
  "mac-" ++ secret ++ "-" ++ strokes (N.to_nat (userId c)).

(** The collaborators, for a given [BASE_URL]. *)
Definition collaborators (base : option string) : Collaborators :=
  {| BASE_URL := base;
     jwt_secret := "s3cret";
     random_bits := fun k =>
       (N.of_nat (S k) * 0x9e3779b97f4a7c15f39cc0605cedc835)%N;
     publicUrl := fun key =>
       "https://proj.supabase.co/storage/v1/object/public/uploads/" ++ key;
     storage_search := fun query bucket =>
       filter (fun e => includes query (name e)) bucket;
     bcrypt_hash := toy_hash;
     bcrypt_compare := toy_compare;
     hs256 := toy_mac;
     jwt_encode := encode;
     jwt_decode := decode |}.

Definition empty_world : world := {| uploads := []; users := []; draws := 0 |}.

Definition png (fname : string) (bytes : N) : file :=
  {| originalname := fname; mimetype := "image/png"; buffer := "PNG";
     size := bytes |}.

Definition MiB : N := (1024 * 1024)%N.

(** An 11 MiB text file, an 11 MiB picture, and batches. *)
Definition big_text : file :=
  {| originalname := "notes.txt"; mimetype := "text/plain"; buffer := "";
     size := (11 * MiB)%N |}.

Definition big_png : file := png "poster.png" (11 * MiB)%N.

Definition three_pngs : list file :=
  [png "one.png" 100; png "two.final.PNG" 200; png "three.png" 300]%N.

Definition eleven_pngs : list file := repeat (png "tile.png" 64%N) 11.

(** Files [fileFilter] lets through although the extension is not one of
    the five, or the declared type is not an image type. *)
Definition pngx_file : file :=
  {| originalname := "report.pngx"; mimetype := "image/png"; buffer := "%PDF";
     size := 4%N |}.

Definition webpack_file : file :=
  {| originalname := "bundle.png"; mimetype := "text/x-webpack";
     buffer := "module.exports"; size := 14%N |}.

(** A bucket with one PNG, and a bucket with three objects. *)
Definition png_world : world :=
  {| uploads := [{| name := "a.png"; content := "PNGDATA";
                    contentType := "image/png" |}];
     users := []; draws := 0 |}.

Definition three_objects : world :=
  {| uploads := [{| name := "b.png"; content := "B"; contentType := "image/png" |};
                 {| name := "ab.png"; content := "AB"; contentType := "image/png" |};
                 {| name := "a.png"; content := "A"; contentType := "image/png" |}];
     users := []; draws := 3 |}.


(** A table with an account whose hash is usable and one whose hash is
    missing. *)
Definition ann : user :=
  {| id := 1%N; email := "ann@x.com"; username := "ann"; full_name := "Ann";
     role := "user"; password := Some (toy_hash 7 "secret"); bio := None;
     updated_at := None |}.

Definition bob : user :=
  {| id := 2%N; email := "bob@x.com"; username := "bob"; full_name := "Bob";
     role := "user"; password := None; bio := None; updated_at := None |}.

Definition two_accounts : world :=
  {| uploads := []; users := [ann; bob]; draws := 0 |}.

Definition credentials (mail plain : string) : account_body :=
  {| body_email := Some mail; body_username := None; body_full_name := None;
     body_role := None; body_password := Some plain |}.

End Demo.

(* ===================================================================== *)
(** * Notions used to state the properties *)
(* ===================================================================== *)

(** A file the upload stage lets through: the filter accepts it and it is
    within the size limit. *)
Definition passes (f : file) : bool :=
  match fileFilter f with
  | None => negb (fileSize_limit <? size f)%N
  | Some _ => false
  end.

(** The outcome of each store of a batch, one after the other, in the order
    of the files, and the world when all have ended. *)
Fixpoint store_each {collab : Collaborators} (fs : list file) (w : world)
  : list (js_error + stored) * world :=
  match fs with
  | [] => ([], w)
  | f :: rest =>
      let '(r, w1) := uploadToSupabase f w in
      let '(rs, w2) := store_each rest w1 in
      (r :: rs, w2)
  end.

(** The values of a list of outcomes when none is an error, the first
    error otherwise. *)
Fixpoint all_results {A} (rs : list (js_error + A)) : js_error + list A :=
  match rs with
  | [] => inr []
  | r :: rest =>
      match r, all_results rest with
      | inl e, _ => inl e
      | inr _, inl e => inl e
      | inr a, inr l => inr (a :: l)
      end
  end.

(** The object [POST /upload-multiple] returns for one stored file. *)
Definition batch_item {collab : Collaborators} (r : stored) : json :=
  JObj [("id", JStr (stored_id r));
        ("filename", JStr (stored_filename r));
        ("url", JStr (file_url (stored_filename r) (stored_url r)))].

(** The row a registration stores. *)
Definition new_account {collab : Collaborators} (b : account_body) (mail plain : string) (w : world)
  : user :=
  {| id := fresh_id (users w);
     email := mail;
     username := or_else (body_username b) (split_first "@" mail);
     full_name := or_else (body_full_name b) "";
     role := assigned_role (body_role b);
     password := Some (bcrypt_hash (random_bits (draws w)) plain);
     bio := None;
     updated_at := None |}.

(** The bits of a 128-bit draw that reach the identifier: all of them but
    the high half of byte 6, which the version replaces, and the two high
    bits of byte 8, which the variant replaces; 122 bits. *)
Definition free_bits : N :=
  N.lxor (N.ones 128)
         (N.lor (N.shiftl 240 (8 * (15 - 6))) (N.shiftl 192 (8 * (15 - 8)))).

(** The bytes of [free_bits], computed where they occur in a goal. *)
Ltac free_bits_bytes :=
  repeat match goal with
         | |- context [random_byte free_bits ?i] =>
             let v := eval vm_compute in (random_byte free_bits i) in
             change (random_byte free_bits i) with v
         end.

(** [res.get(h)] on the headers a handler has set. *)
Fixpoint header_get (h : string) (hs : list (string * string)) : option string :=
  match hs with
  | [] => None
  | (k, v) :: rest => if String.eqb k h then Some v else header_get h rest
  end.

(** The [url] of a returned object, as decided by [BASE_URL] alone: the
    gateway's own [/file] address when [BASE_URL] is a non-empty string, the
    bucket's public address when it is absent or empty. *)
Definition url_shape {collab : Collaborators} (j : json) : Prop :=
  exists fn u,
    json_get "filename" j = Some (JStr fn) /\
    json_get "url" j = Some (JStr u) /\
    (forall base, BASE_URL = Some base -> base <> "" ->
                  u = base ++ "/file/" ++ fn) /\
    (BASE_URL = None \/ BASE_URL = Some "" -> u = publicUrl fn).

(* ===================================================================== *)
(** * Facts about the string operations *)
(* ===================================================================== *)

Section StringFacts.

Lemma append_assoc_str (a b c : string) : (a ++ b) ++ c = a ++ (b ++ c).
Proof. induction a as [|x a IH]; simpl; [reflexivity | now rewrite IH]. Qed.

Lemma has_char_app (c : ascii) (a b : string) :
  has_char c (a ++ b) = has_char c a || has_char c b.
Proof.
  induction a as [|x a IH]; simpl; [reflexivity|].
  now rewrite IH, orb_assoc.
Qed.

Lemma startsWith_app (p s : string) : startsWith p (p ++ s) = true.
Proof.
  induction p as [|x p IH]; simpl; [reflexivity|].
  now rewrite Ascii.eqb_refl, IH.
Qed.

Lemma startsWith_inv (p s : string) :
  startsWith p s = true -> exists r, s = p ++ r.
Proof.
  revert s; induction p as [|x p IH]; intros s H.
  - now exists s.
  - destruct s as [|y s]; simpl in H; [discriminate|].
    apply andb_true_iff in H as [Hxy Hp].
    apply Ascii.eqb_eq in Hxy; subst y.
    destruct (IH _ Hp) as [r ->]. now exists r.
Qed.

Lemma split_segments_no_sep (sep : ascii) (s : string) :
  has_char sep s = false -> split_segments sep s = (s, []).
Proof.
  induction s as [|a s IH]; simpl; intros H; [reflexivity|].
  apply orb_false_iff in H as [Ha Hs].
  now rewrite (IH Hs), Ha.
Qed.

(** Every segment of a split is free of the separator. *)
Lemma split_segments_free (sep : ascii) (s : string) :
  has_char sep (fst (split_segments sep s)) = false /\
  Forall (fun seg => has_char sep seg = false) (snd (split_segments sep s)).
Proof.
  induction s as [|a s [IHf IHr]]; simpl.
  - split; [reflexivity | constructor].
  - destruct (split_segments sep s) as [seg rest]; simpl in *.
    destruct (Ascii.eqb a sep) eqn:E; simpl.
    + split; [reflexivity | now constructor].
    + split; [now rewrite E | assumption].
Qed.

Lemma split_first_free (sep : ascii) (s : string) :
  has_char sep (split_first sep s) = false.
Proof. apply split_segments_free. Qed.

Lemma split_pop_free (sep : ascii) (s : string) :
  has_char sep (split_pop sep s) = false.
Proof.
  unfold split_pop.
  destruct (split_segments_free sep s) as [Hf Hr].
  destruct (split_segments sep s) as [seg rest]; simpl in *.
  revert seg Hf; induction Hr as [|x l Hx Hl IH]; intros seg Hf; simpl.
  - assumption.
  - destruct l; [assumption | now apply IH].
Qed.

(** The first segment ignores what follows the first separator. *)
Lemma split_first_prefix (sep : ascii) (a b : string) :
  split_first sep (a ++ String sep b) = split_first sep a.
Proof.
  unfold split_first.
  induction a as [|c a IH]; simpl.
  - destruct (split_segments sep b); now rewrite Ascii.eqb_refl.
  - destruct (split_segments sep (a ++ String sep b)) as [s1 r1].
    destruct (split_segments sep a) as [s2 r2]. simpl in IH; subst s2.
    now destruct (Ascii.eqb c sep).
Qed.

Lemma split_first_app (sep : ascii) (a b : string) :
  has_char sep a = false -> split_first sep (a ++ String sep b) = a.
Proof.
  intros H. rewrite split_first_prefix. unfold split_first.
  now rewrite (split_segments_no_sep _ _ H).
Qed.

(** The last segment is what follows the last separator. *)
Lemma split_segments_snoc (sep : ascii) (a b : string) :
  has_char sep b = false ->
  exists seg init,
    split_segments sep (a ++ String sep b) = (seg, (init ++ [b])%list).
Proof.
  intros Hb. induction a as [|c a (seg & init & IH)]; simpl.
  - rewrite (split_segments_no_sep _ _ Hb), Ascii.eqb_refl.
    now exists EmptyString, [].
  - rewrite IH. destruct (Ascii.eqb c sep).
    + now exists EmptyString, (seg :: init).
    + now exists (String c seg), init.
Qed.

Lemma split_pop_app (sep : ascii) (a b : string) :
  has_char sep b = false -> split_pop sep (a ++ String sep b) = b.
Proof.
  intros Hb. unfold split_pop.
  destruct (split_segments_snoc sep a b Hb) as (seg & init & ->).
  apply last_last.
Qed.

End StringFacts.

(* ===================================================================== *)
(** * Facts about the object namer *)
(* ===================================================================== *)

Lemma hex_digit_not_dot (n : N) : Ascii.eqb (hex_digit n) "." = false.
Proof.
  unfold hex_digit. generalize (N.to_nat (N.land n 15)). intros k.
  do 16 (destruct k as [|k]; [reflexivity|]).
  destruct k; reflexivity.
Qed.

Lemma hex_bytes_no_dot (l : list N) : has_char "." (hex_bytes l) = false.
Proof.
  induction l as [|b l IH]; simpl; [reflexivity|].
  now rewrite !hex_digit_not_dot.
Qed.

Lemma hex_bytes_length (l : list N) :
  String.length (hex_bytes l) = 2 * List.length l.
Proof. induction l as [|b l IH]; simpl; [reflexivity | rewrite IH; lia]. Qed.

Lemma uuid_no_dot (bits : N) : has_char "." (uuid_of_bits bits) = false.
Proof.
  unfold uuid_of_bits.
  rewrite !has_char_app, !hex_bytes_no_dot. reflexivity.
Qed.

Lemma uuid_length (bits : N) : String.length (uuid_of_bits bits) = 36.
Proof. reflexivity. Qed.

(** ** The identifier is the free bits of the draw *)

Lemma hex_digit_inj (a b : N) :
  hex_digit a = hex_digit b -> N.land a 15 = N.land b 15.
Proof.
  unfold hex_digit.
  assert (Ha : (N.to_nat (N.land a 15) < 16)%nat).
  { change 15%N with (N.ones 4). rewrite N.land_ones.
    pose proof (N.mod_upper_bound a (2 ^ 4)%N). change (2^4)%N with 16%N in *. lia. }
  assert (Hb : (N.to_nat (N.land b 15) < 16)%nat).
  { change 15%N with (N.ones 4). rewrite N.land_ones.
    pose proof (N.mod_upper_bound b (2 ^ 4)%N). change (2^4)%N with 16%N in *. lia. }
  intros H. apply N2Nat.inj.
  revert Ha Hb H.
  generalize (N.to_nat (N.land a 15)) (N.to_nat (N.land b 15)).
  intros n m Hn Hm.
  do 16 (destruct n as [|n];
         [do 16 (destruct m as [|m]; [simpl; intros E; try reflexivity; discriminate E|]); lia|]).
  lia.
Qed.

Lemma byte_halves (a b : N) :
  N.land (N.shiftr a 4) 15 = N.land (N.shiftr b 4) 15 ->
  N.land a 15 = N.land b 15 ->
  N.land a 255 = N.land b 255.
Proof.
  change 15%N with (N.ones 4). change 255%N with (N.ones 8).
  rewrite !N.land_ones, !N.shiftr_div_pow2.
  change (2 ^ 8)%N with (2 ^ 4 * 2 ^ 4)%N.
  rewrite !N.Div0.mod_mul_r. intros -> ->. reflexivity.
Qed.

Lemma random_byte_land (b m i : N) :
  random_byte (N.land b m) i = N.land (random_byte b i) (random_byte m i).
Proof.
  unfold random_byte. rewrite N.shiftr_land.
  apply N.bits_inj. intros n. rewrite !N.land_spec.
  destruct (N.testbit (N.shiftr b _) n), (N.testbit (N.shiftr m _) n),
           (N.testbit 255 n); reflexivity.
Qed.

Lemma random_byte_low (b i : N) : N.land (random_byte b i) 255 = random_byte b i.
Proof. unfold random_byte. now rewrite <- N.land_assoc. Qed.


Lemma version_byte_low (x : N) :
  N.land (N.land (N.lor (N.land x 15) 64) 255) 15 = N.land x 15.
Proof.
  rewrite <- (N.land_assoc _ 255 15). change (N.land 255 15) with 15%N.
  rewrite N.land_lor_distr_l, <- N.land_assoc.
  change (N.land 15 15) with 15%N. change (N.land 64 15) with 0%N.
  apply N.lor_0_r.
Qed.

Lemma variant_byte_low (x : N) :
  N.land (N.land (N.lor (N.land x 63) 128) 255) 63 = N.land x 63.
Proof.
  rewrite <- (N.land_assoc _ 255 63). change (N.land 255 63) with 63%N.
  rewrite N.land_lor_distr_l, <- N.land_assoc.
  change (N.land 63 63) with 63%N. change (N.land 128 63) with 0%N.
  apply N.lor_0_r.
Qed.

Lemma uuid_of_free_bits (b : N) :
  uuid_of_bits (N.land b free_bits) = uuid_of_bits b.
Proof.
  unfold uuid_of_bits. cbv beta zeta.
  rewrite !random_byte_land. free_bits_bytes.
  rewrite !random_byte_low, <- !N.land_assoc.
  change (N.land 15 15) with 15%N. change (N.land 63 63) with 63%N.
  reflexivity.
Qed.

Lemma low_bytes (x y : N) (n : nat) :
  (forall j, (j < n)%nat ->
     ((x / 2 ^ (8 * N.of_nat j)) mod 256 = (y / 2 ^ (8 * N.of_nat j)) mod 256)%N) ->
  (x mod 2 ^ (8 * N.of_nat n) = y mod 2 ^ (8 * N.of_nat n))%N.
Proof.
  induction n as [|n IH]; intros H.
  - change (2 ^ (8 * N.of_nat 0))%N with 1%N. now rewrite !N.mod_1_r.
  - replace (8 * N.of_nat (S n))%N with (8 * N.of_nat n + 8)%N by lia.
    rewrite N.pow_add_r. change (2 ^ 8)%N with 256%N.
    rewrite !N.Div0.mod_mul_r.
    rewrite IH by (intros j Hj; apply H; lia).
    now rewrite (H n) by lia.
Qed.

Lemma random_byte_div (x i : N) :
  random_byte x i = ((x / 2 ^ (8 * (15 - i))) mod 256)%N.
Proof.
  unfold random_byte. change 255%N with (N.ones 8).
  now rewrite N.land_ones, N.shiftr_div_pow2.
Qed.

Lemma bytes_inj (x y : N) :
  (forall i, (i < 16)%N -> random_byte x i = random_byte y i) ->
  (x mod 2 ^ 128 = y mod 2 ^ 128)%N.
Proof.
  intros H. apply (low_bytes x y 16). intros j Hj.
  assert (Hi : (15 - N.of_nat j < 16)%N) by lia.
  pose proof (H _ Hi) as E. rewrite !random_byte_div in E.
  now replace (15 - (15 - N.of_nat j))%N with (N.of_nat j) in E by lia.
Qed.

Lemma free_bits_low (b : N) :
  (N.land b free_bits mod 2 ^ 128 = N.land b free_bits)%N.
Proof.
  rewrite <- N.land_ones, <- N.land_assoc.
  now replace (N.land free_bits (N.ones 128)) with free_bits
    by (vm_compute; reflexivity).
Qed.

Lemma hex_byte_app_inj (u v : N) (s t : string) :
  hex_byte u ++ s = hex_byte v ++ t -> N.land u 255 = N.land v 255 /\ s = t.
Proof.
  unfold hex_byte. cbn [append]. intros E.
  injection E as E1 E2 E3. split; [|assumption].
  apply byte_halves; now apply hex_digit_inj.
Qed.

Lemma String_tail (c d : ascii) (s t : string) :
  String c s = String d t -> s = t.
Proof. intros E. now injection E. Qed.

Lemma below_16 (i : N) :
  (i < 16)%N ->
  In i [0; 1; 2; 3; 4; 5; 6; 7; 8; 9; 10; 11; 12; 13; 14; 15]%N.
Proof.
  intros H. rewrite <- (N2Nat.id i).
  assert (Hn : (N.to_nat i < 16)%nat) by lia.
  revert Hn. generalize (N.to_nat i). intros n Hn.
  do 16 (destruct n as [|n]; [cbn; tauto|]). lia.
Qed.

Lemma uuid_bytes (b1 b2 : N) :
  uuid_of_bits b1 = uuid_of_bits b2 ->
  forall i, (i < 16)%N ->
    random_byte (N.land b1 free_bits) i = random_byte (N.land b2 free_bits) i.
Proof.
  intros H. unfold uuid_of_bits in H. cbv beta zeta in H.
  cbn [hex_bytes] in H. rewrite !append_assoc_str in H. cbn [append] in H.
  repeat match type of H with
         | hex_byte _ ++ _ = hex_byte _ ++ _ =>
             let E := fresh "E" in
             apply hex_byte_app_inj in H as [E H]
         | String _ _ = String _ _ => apply String_tail in H
         end.
  rewrite ?random_byte_low in *.
  repeat match goal with
         | E : N.land (N.lor (N.land _ 15%N) 64%N) 255%N = _ |- _ =>
             apply (f_equal (fun v => N.land v 15%N)) in E; cbv beta in E;
             rewrite !version_byte_low in E
         | E : N.land (N.lor (N.land _ 63%N) 128%N) 255%N = _ |- _ =>
             apply (f_equal (fun v => N.land v 63%N)) in E; cbv beta in E;
             rewrite !variant_byte_low in E
         end.
  intros i Hi. apply below_16 in Hi. rewrite !random_byte_land.
  cbn [In] in Hi.
  repeat (destruct Hi as [<- | Hi];
          [free_bits_bytes; rewrite ?random_byte_low; assumption|]).
  contradiction.
Qed.

Lemma uuid_of_bits_inj (b1 b2 : N) :
  uuid_of_bits b1 = uuid_of_bits b2 <->
  N.land b1 free_bits = N.land b2 free_bits.
Proof.
  split.
  - intros H. rewrite <- (free_bits_low b1), <- (free_bits_low b2).
    now apply bytes_inj, uuid_bytes.
  - intros H. now rewrite <- (uuid_of_free_bits b1), H, uuid_of_free_bits.
Qed.

Lemma storage_key_first (i original : string) :
  has_char "." i = false -> split_first "." (storage_key i original) = i.
Proof. intros H. unfold storage_key. simpl. now apply split_first_app. Qed.

Lemma storage_key_pop (i original : string) :
  split_pop "." (storage_key i original) = split_pop "." original.
Proof. unfold storage_key. simpl. apply split_pop_app, split_pop_free. Qed.

Lemma storage_key_starts (i original : string) :
  startsWith (i ++ ".") (storage_key i original) = true.
Proof.
  unfold storage_key.
  change (i ++ "." ++ split_pop "." original)
    with (i ++ String "." (split_pop "." original)).
  replace (i ++ String "." (split_pop "." original))
    with ((i ++ ".") ++ split_pop "." original)
    by (now rewrite append_assoc_str).
  apply startsWith_app.
Qed.

(* ===================================================================== *)
(** * Facts about the upload stage and the storage handlers *)
(* ===================================================================== *)

Section StorageFacts.
Context {collab : Collaborators}.

(** What one store does: it draws an identifier, and the put succeeds
    exactly when the key is new. *)
Lemma uploadToSupabase_run (f : file) (w : world) :
  uploadToSupabase f w =
  let i := uuid_of_bits (random_bits (draws w)) in
  let key := storage_key i (originalname f) in
  if has_key key (uploads w)
  then (inl (StorageError "The resource already exists"),
        {| uploads := uploads w; users := users w; draws := S (draws w) |})
  else (inr {| stored_id := i; stored_filename := key;
               stored_url := publicUrl key; stored_size := size f;
               stored_mimetype := mimetype f |},
        {| uploads := {| name := key; content := buffer f;
                         contentType := mimetype f |} :: uploads w;
           users := users w; draws := S (draws w) |}).
Proof.
  unfold uploadToSupabase, bind, randomUUID, storage_upload; simpl.
  destruct (has_key _ (uploads w)); reflexivity.
Qed.

Lemma uploadToSupabase_inr (f : file) (w w' : world) (r : stored) :
  uploadToSupabase f w = (inr r, w') ->
  stored_id r = uuid_of_bits (random_bits (draws w)) /\
  stored_filename r = storage_key (stored_id r) (originalname f) /\
  stored_url r = publicUrl (stored_filename r) /\
  uploads w' = {| name := stored_filename r; content := buffer f;
                  contentType := mimetype f |} :: uploads w /\
  draws w' = S (draws w).
Proof.
  rewrite uploadToSupabase_run; cbv zeta.
  destruct (has_key _ (uploads w)); intros H; inversion H; subst; clear H.
  simpl. repeat split; reflexivity.
Qed.

(** C8. Every object [uploadToSupabase] creates, whatever the original file
    name, is stored under the key [<id>.<ext>]: [id] is the UUID made from
    the 128 bits drawn from the random source, 36 characters without a dot;
    [ext] is the last dot-segment of the original name, without a dot; and
    [id] is recovered from the key as its part before the first dot, which is
    what the listing and the deletion by id read. The identifier carries the
    122 free bits of the draw and nothing else: two stores get the same
    identifier exactly when their draws agree on those bits. *)
Theorem stored_object_key_shape (f : file) (w w' : world) (r : stored) :
  uploadToSupabase f w = (inr r, w') ->
  stored_id r = uuid_of_bits (random_bits (draws w)) /\
  String.length (stored_id r) = 36 /\
  has_char "." (stored_id r) = false /\
  stored_filename r = stored_id r ++ "." ++ split_pop "." (originalname f) /\
  has_char "." (split_pop "." (originalname f)) = false /\
  split_first "." (stored_filename r) = stored_id r /\
  split_pop "." (stored_filename r) = split_pop "." (originalname f) /\
  (exists e,
     uploads w' = e :: uploads w /\
     name e = stored_filename r /\
     json_get "id" (image_item e) = Some (JStr (stored_id r)) /\
     find_by_id (stored_id r) (uploads w') = Some e) /\
  (forall f2 w2 w2' r2,
     uploadToSupabase f2 w2 = (inr r2, w2') ->
     (stored_id r = stored_id r2 <->
      N.land (random_bits (draws w)) free_bits
      = N.land (random_bits (draws w2)) free_bits)).
Proof.
  intros H. apply uploadToSupabase_inr in H as (Hid & Hkey & _ & Hup & _).
  assert (Hdraw : forall f2 w2 w2' r2,
            uploadToSupabase f2 w2 = (inr r2, w2') ->
            (stored_id r = stored_id r2 <->
             N.land (random_bits (draws w)) free_bits
             = N.land (random_bits (draws w2)) free_bits)).
  { intros f2 w2 w2' r2 H2.
    apply uploadToSupabase_inr in H2 as (Hid2 & _).
    rewrite Hid, Hid2. apply uuid_of_bits_inj. }
  assert (Hdot : has_char "." (stored_id r) = false)
    by (rewrite Hid; apply uuid_no_dot).
  assert (Hfirst : split_first "." (stored_filename r) = stored_id r)
    by (rewrite Hkey; now apply storage_key_first).
  repeat split.
  - exact Hid.
  - rewrite Hid. apply uuid_length.
  - exact Hdot.
  - exact Hkey.
  - apply split_pop_free.
  - exact Hfirst.
  - rewrite Hkey. apply storage_key_pop.
  - eexists; repeat split.
    + exact Hup.
    + reflexivity.
    + simpl. now rewrite Hfirst.
    + rewrite Hup. unfold find_by_id. cbn [find name].
      pose proof (storage_key_starts (stored_id r) (originalname f)) as Hs.
      rewrite <- Hkey in Hs. now rewrite Hs.
  - now apply (Hdraw f2 w2 w2' r2).
  - now apply (Hdraw f2 w2 w2' r2).
Qed.

(** ** The upload stage *)

Lemma passes_inv (f : file) :
  passes f = true ->
  fileFilter f = None /\ (fileSize_limit <? size f)%N = false.
Proof.
  unfold passes. destruct (fileFilter f); [discriminate|].
  intros H. apply negb_true_iff in H. now split.
Qed.

Lemma fileFilter_error (f : file) (e : js_error) :
  fileFilter f = Some e -> e = Error "Only image files are allowed".
Proof.
  unfold fileFilter. destruct (_ && _); [discriminate|].
  intros H; now inversion H.
Qed.

Lemma multer_files_ok (parts : list file) :
  forall n, forallb passes parts = true -> List.length parts <= n ->
            multer_files n parts = inr parts.
Proof.
  induction parts as [|f rest IH]; intros n Hp Hn; [reflexivity|].
  simpl in Hp, Hn. apply andb_true_iff in Hp as [Hf Hrest].
  destruct n as [|n]; [lia|]. simpl.
  destruct (passes_inv f Hf) as [-> ->].
  rewrite IH by (assumption || lia). reflexivity.
Qed.

Lemma multer_files_too_many (n : nat) :
  forall parts, n < List.length parts ->
                forallb passes (firstn n parts) = true ->
                multer_files n parts
                = inl (MulterError "LIMIT_UNEXPECTED_FILE" "Unexpected field").
Proof.
  induction n as [|n IH]; intros [|f rest] Hn Hp; simpl in Hn; try lia.
  - reflexivity.
  - simpl in Hp. apply andb_true_iff in Hp as [Hf Hrest]. simpl.
    destruct (passes_inv f Hf) as [-> ->].
    rewrite IH by (assumption || lia). reflexivity.
Qed.

Lemma multer_files_long (n : nat) :
  forall parts, n < List.length parts -> exists e, multer_files n parts = inl e.
Proof.
  induction n as [|n IH]; intros [|f rest] Hn; simpl in Hn; try lia; simpl.
  - eauto.
  - destruct (fileFilter f); [eauto|].
    destruct (fileSize_limit <? size f)%N; [eauto|].
    destruct (IH rest) as [e ->]; [lia | eauto].
Qed.

(** ** The stores of a batch *)

Lemma uploadToSupabase_draws (f : file) (w : world) :
  draws (snd (uploadToSupabase f w)) = S (draws w).
Proof.
  rewrite uploadToSupabase_run; cbv zeta.
  now destruct (has_key _ (uploads w)).
Qed.

Lemma promise_all_store_each (fs : list file) :
  forall w, promise_all (map uploadToSupabase fs) w
            = (all_results (fst (store_each fs w)), snd (store_each fs w)).
Proof.
  induction fs as [|f rest IH]; intros w; simpl; [reflexivity|].
  destruct (uploadToSupabase f w) as [r w1]. rewrite IH.
  destruct (store_each rest w1) as [rs w2]. simpl.
  destruct r, (all_results rs); reflexivity.
Qed.

Lemma store_each_length (fs : list file) :
  forall w, List.length (fst (store_each fs w)) = List.length fs.
Proof.
  induction fs as [|f rest IH]; intros w; simpl; [reflexivity|].
  destruct (uploadToSupabase f w) as [r w1].
  specialize (IH w1). destruct (store_each rest w1). simpl in *. now rewrite IH.
Qed.

(** The [k]-th outcome is the store of the [k]-th file, under the [k]-th
    identifier drawn. *)
Lemma store_each_nth (fs : list file) :
  forall w k f r,
    nth_error fs k = Some f ->
    nth_error (fst (store_each fs w)) k = Some (inr r) ->
    stored_id r = uuid_of_bits (random_bits (draws w + k)) /\
    stored_filename r = storage_key (stored_id r) (originalname f).
Proof.
  induction fs as [|g rest IH]; intros w k f r Hf Hr.
  - destruct k; discriminate.
  - simpl in Hr.
    pose proof (uploadToSupabase_draws g w) as Hd.
    destruct (uploadToSupabase g w) as [o w1] eqn:Hg. simpl in Hd.
    destruct (store_each rest w1) as [os w2] eqn:Hrest.
    destruct k as [|k]; simpl in Hf, Hr.
    + inversion Hf; inversion Hr; subst.
      apply uploadToSupabase_inr in Hg as (Hid & Hkey & _).
      rewrite Nat.add_0_r. now split.
    + replace (draws w + S k) with (draws w1 + k) by lia.
      apply (IH w1); [assumption|]. now rewrite Hrest.
Qed.

Lemma all_results_inr {A} (rs : list A) :
  all_results (map inr rs) = inr rs.
Proof. induction rs as [|a rs IH]; simpl; [reflexivity | now rewrite IH]. Qed.

Lemma all_results_inl {A} (rs : list (js_error + A)) (e : js_error) :
  In (inl e) rs -> exists e', all_results rs = inl e'.
Proof.
  induction rs as [|r rs IH]; intros H; [contradiction|].
  destruct H as [-> | H]; simpl; [eauto|].
  destruct (IH H) as [e' ->]. destruct r; eauto.
Qed.

Lemma upload_multiple_handler_run (fs : list file) (w : world) :
  fs <> [] ->
  upload_multiple_handler fs w =
  (inr match all_results (fst (store_each fs w)) with
       | inr rs =>
           res_json 200
             (JObj [("message", JStr "Uploaded successfully");
                    ("files", JArr (map batch_item rs))])
       | inl _ => res_json 500 (error_body "Failed to upload images")
       end,
   snd (store_each fs w)).
Proof.
  intros Hne. destruct fs as [|f rest]; [contradiction|].
  unfold upload_multiple_handler, try_catch, bind.
  rewrite promise_all_store_each.
  destruct (all_results _); reflexivity.
Qed.

(** ** The upload routes *)

(** How Express runs [POST /upload]: an error of the upload stage passes
    [handleUploadError] and the handler by, neither having four parameters;
    without an error [handleUploadError] is called with the request and
    throws, and the handler is passed by. *)
Lemma post_upload_run (parts : list file) (w : world) :
  post_upload parts w
  = (inr (final_handler match upload_single parts with
                        | inl e => e
                        | inr _ => includes_of_undefined
                        end), w).
Proof.
  unfold post_upload, express_route, upload_single_fn, incoming, ret.
  cbn [fn_length fn_call Nat.eqb Nat.ltb Nat.leb req_parts].
  now destruct (upload_single parts).
Qed.

Lemma post_upload_multiple_run (parts : list file) (w : world) :
  post_upload_multiple parts w
  = (inr (final_handler match upload_array 10 parts with
                        | inl e => e
                        | inr _ => includes_of_undefined
                        end), w).
Proof.
  unfold post_upload_multiple, express_route, upload_array_fn, incoming, ret.
  cbn [fn_length fn_call Nat.eqb Nat.ltb Nat.leb req_parts].
  now destruct (upload_array 10 parts).
Qed.

Lemma upload_handler_run (f : file) (w : world) :
  upload_handler (Some f) w =
  let i := uuid_of_bits (random_bits (draws w)) in
  let key := storage_key i (originalname f) in
  if has_key key (uploads w)
  then (inr (res_json 500 (error_body "Failed to upload image")),
        {| uploads := uploads w; users := users w; draws := S (draws w) |})
  else (inr (res_json 200
               (JObj (obj_set "url" (JStr (file_url key (publicUrl key)))
                        (("message", JStr "Uploaded!")
                           :: stored_fields
                                {| stored_id := i; stored_filename := key;
                                   stored_url := publicUrl key;
                                   stored_size := size f;
                                   stored_mimetype := mimetype f |})))),
        {| uploads := {| name := key; content := buffer f;
                         contentType := mimetype f |} :: uploads w;
           users := users w; draws := S (draws w) |}).
Proof.
  unfold upload_handler, try_catch, bind.
  rewrite uploadToSupabase_run; cbv zeta.
  now destruct (has_key _ (uploads w)).
Qed.

(** C7 (the code against the claim). A file larger than 10 MiB stops in
    the upload stage, so nothing is written, and the error it stops with is
    the size error when the type filter accepts the file and the type error
    when it does not: two errors [handleUploadError] would answer with two
    different 400s. But the route never gives the error to
    [handleUploadError]: [POST /upload] answers the 500 page of Express's
    final handler for whichever error it was, and the world is unchanged. *)
Theorem oversized_upload_answer (f : file) (w : world) :
  (fileSize_limit < size f)%N ->
  exists e,
    upload_single [f] = inl e /\
    post_upload [f] w = (inr (final_handler e), w) /\
    status (final_handler e) = 500 /\
    (fileFilter f = None ->
     is_multer_error "LIMIT_FILE_SIZE" e = true /\
     handleUploadError e
     = res_json 400 (error_body "File too large. Max 10MB.")) /\
    (fileFilter f <> None ->
     fileFilter f = Some e /\
     handleUploadError e
     = res_json 400 (error_body "Only image files are allowed")).
Proof.
  intros Hsize. apply N.ltb_lt in Hsize.
  rewrite post_upload_run. unfold upload_single. cbn [multer_files].
  destruct (fileFilter f) as [e|] eqn:He.
  - exists e. split; [reflexivity|]. split; [reflexivity|].
    split; [reflexivity|]. split; [discriminate|]. intros _.
    split; [reflexivity|]. now rewrite (fileFilter_error f e He).
  - rewrite Hsize. eexists. split; [reflexivity|]. split; [reflexivity|].
    split; [reflexivity|]. split; [|congruence]. intros _. now split.
Qed.

(** C6 (the code against the claim). Whatever the batch, [POST
    /upload-multiple] answers the 500 page of Express's final handler and
    stores nothing: for the error of the upload stage when the stage ends
    with one (as it does for more than ten files, with multer's
    [LIMIT_UNEXPECTED_FILE] when the first ten pass the filter and the size
    limit), and otherwise for the [TypeError] that [handleUploadError] throws
    when it is called with the request. The handler is never reached. Given
    the files of a batch of one to ten that all pass, the handler by itself
    stores them file by file, every store running to its end, and answers
    200 exactly when no store failed, with one object per file in the order
    of the files. *)
Theorem batch_upload_answer (parts : list file) (w : world) :
  (exists e,
     post_upload_multiple parts w = (inr (final_handler e), w) /\
     status (final_handler e) = 500 /\
     match upload_array 10 parts with
     | inl err => e = err
     | inr _ => e = includes_of_undefined
     end) /\
  (10 < List.length parts ->
   exists err,
     upload_array 10 parts = inl err /\
     (forallb passes (firstn 10 parts) = true ->
      is_multer_error "LIMIT_UNEXPECTED_FILE" err = true)) /\
  (List.length parts <= 10 -> parts <> [] -> forallb passes parts = true ->
   upload_array 10 parts = inr parts /\
   let outcomes := fst (store_each parts w) in
   snd (upload_multiple_handler parts w) = snd (store_each parts w) /\
   List.length outcomes = List.length parts /\
   (forall rs, outcomes = map inr rs ->
      fst (upload_multiple_handler parts w)
      = inr (res_json 200
               (JObj [("message", JStr "Uploaded successfully");
                      ("files", JArr (map batch_item rs))]))) /\
   (forall e, In (inl e) outcomes ->
      fst (upload_multiple_handler parts w)
      = inr (res_json 500 (error_body "Failed to upload images"))) /\
   (forall k f r,
      nth_error parts k = Some f -> nth_error outcomes k = Some (inr r) ->
      stored_id r = uuid_of_bits (random_bits (draws w + k)) /\
      stored_filename r = storage_key (stored_id r) (originalname f))).
Proof.
  split; [|split].
  - rewrite post_upload_multiple_run. eexists. split; [reflexivity|].
    split; [reflexivity|]. now destruct (upload_array 10 parts).
  - intros Hlen. destruct (multer_files_long 10 parts Hlen) as [err Herr].
    exists err. split; [exact Herr|]. intros Hp.
    rewrite (multer_files_too_many 10 parts Hlen Hp) in Herr.
    now inversion Herr.
  - intros Hlen Hne Hp. split; [now apply multer_files_ok|].
    intros outcomes. subst outcomes.
    rewrite (upload_multiple_handler_run parts w Hne). cbn [fst snd].
    split; [reflexivity|]. split; [apply store_each_length|].
    split; [|split].
    + intros rs Hrs. now rewrite Hrs, all_results_inr.
    + intros e He. now destruct (all_results_inl _ e He) as [e' ->].
    + intros k f r. apply store_each_nth.
Qed.

(** ** The type filter *)

Lemma startsWith_refl (s : string) : startsWith s s = true.
Proof.
  induction s as [|a s IH]; [reflexivity|].
  cbn [startsWith]. now rewrite Ascii.eqb_refl, IH.
Qed.

Lemma includes_self (s : string) : includes s s = true.
Proof.
  destruct s as [|a s]; [reflexivity|].
  cbn [includes]. now rewrite startsWith_refl.
Qed.

(** The filter is wide enough: an extension that is one of the five names,
    in any case, passes the extension test. *)
Lemma listed_extension_passes (nm : string) :
  extension_is_listed nm = true ->
  allowed_test (toLowerCase (split_pop "." nm)) = true.
Proof.
  unfold extension_is_listed, allowed_test, allowed_alternatives.
  intros H. apply existsb_exists in H as (alt & Hin & Heq).
  apply String.eqb_eq in Heq. rewrite Heq.
  apply existsb_exists. exists alt. split; [|apply includes_self].
  simpl in Hin |- *. intuition.
Qed.

(** ** Serving a file *)

Lemma find_has_key (key : string) (bucket : list entry) :
  has_key key bucket = false ->
  find (fun e => String.eqb (name e) key) bucket = None.
Proof.
  induction bucket as [|e b IH]; simpl; [reflexivity|].
  destruct (String.eqb (name e) key); [discriminate | exact IH].
Qed.

(** C9 (as amended). [GET /file/:filename] answers 200 with the bytes of the
    stored object and the single header [Content-Type: image/jpeg], whatever
    the type the object was stored with; when the bucket has no object of
    that name it answers 404 "File not found". The bucket is left as it
    is. *)
Theorem get_file_response (filename : string) (w : world) :
  (forall e,
     find (fun e => String.eqb (name e) filename) (uploads w) = Some e ->
     get_file filename w
     = (inr {| status := 200;
               headers := [("Content-Type", "image/jpeg")];
               sent := Binary (content e) |}, w)) /\
  (has_key filename (uploads w) = false ->
   get_file filename w = (inr (res_json 404 (error_body "File not found")), w)).
Proof.
  split.
  - intros e He. unfold get_file, try_catch, bind, storage_download.
    now rewrite He.
  - intros Hno. unfold get_file, try_catch, bind, storage_download.
    now rewrite (find_has_key _ _ Hno).
Qed.

(** ** The address returned for an upload *)

Lemma file_url_base (base fn u : string) :
  BASE_URL = Some base -> base <> "" -> file_url fn u = base ++ "/file/" ++ fn.
Proof.
  intros Hb Hne. unfold file_url. rewrite Hb.
  destruct (String.eqb_spec base ""); [contradiction | reflexivity].
Qed.

Lemma file_url_public (fn u : string) :
  BASE_URL = None \/ BASE_URL = Some "" -> file_url fn u = u.
Proof. intros [Hb | Hb]; unfold file_url; now rewrite Hb. Qed.

Lemma url_shape_intro (o : list (string * json)) (fn : string) :
  obj_get "filename" o = Some (JStr fn) ->
  obj_get "url" o = Some (JStr (file_url fn (publicUrl fn))) ->
  url_shape (JObj o).
Proof.
  intros Hf Hu. exists fn, (file_url fn (publicUrl fn)). simpl.
  repeat split; try assumption.
  - intros base Hb Hne. now apply file_url_base.
  - apply file_url_public.
Qed.

Lemma store_each_url (fs : list file) :
  forall w r, In (inr r) (fst (store_each fs w)) ->
              stored_url r = publicUrl (stored_filename r).
Proof.
  induction fs as [|f rest IH]; intros w r Hin; simpl in Hin; [contradiction|].
  destruct (uploadToSupabase f w) as [o w1] eqn:Hf.
  specialize (IH w1 r). destruct (store_each rest w1) as [os w2].
  simpl in *. destruct Hin as [-> | Hin]; [|now apply IH].
  now apply uploadToSupabase_inr in Hf as (_ & _ & Hurl & _).
Qed.

Lemma all_results_In {A} (rs : list (js_error + A)) :
  forall l a, all_results rs = inr l -> In a l -> In (inr a) rs.
Proof.
  induction rs as [|r rs IH]; intros l a Hall Hin; simpl in Hall.
  - inversion Hall; subst. contradiction.
  - destruct r as [e|x]; [discriminate|].
    destruct (all_results rs) as [e|l']; [discriminate|].
    inversion Hall; subst. destruct Hin as [-> | Hin].
    + now left.
    + right. now apply (IH l').
Qed.

(** C10. In every 200 answer of the handler of [POST /upload] and of the
    handler of [POST /upload-multiple], the [url] of each returned object is
    [BASE_URL + "/file/" + filename] when [BASE_URL] is set (a non-empty
    string), and the bucket's public address of that file when it is not
    (absent or empty). *)
Theorem upload_url_shape (req_file : option file) (req_files : list file)
        (w w' : world) (r : response) :
  status r = 200 ->
  (upload_handler req_file w = (inr r, w') ->
   exists j, sent r = Json j /\ url_shape j) /\
  (upload_multiple_handler req_files w = (inr r, w') ->
   exists items,
     sent r = Json (JObj [("message", JStr "Uploaded successfully");
                          ("files", JArr items)]) /\
     Forall url_shape items).
Proof.
  intros Hok. split; intros Hrun.
  - destruct req_file as [f|].
    + rewrite upload_handler_run in Hrun; cbv zeta in Hrun.
      destruct (has_key _ (uploads w));
        inversion Hrun; subst r; [discriminate|].
      eexists; split; [reflexivity|].
      eapply url_shape_intro; reflexivity.
    + inversion Hrun; subst r; discriminate.
  - destruct req_files as [|f fs]; [inversion Hrun; subst r; discriminate|].
    rewrite upload_multiple_handler_run in Hrun by discriminate.
    destruct (all_results (fst (store_each (f :: fs) w))) as [e | rs] eqn:Hall;
      inversion Hrun; subst r; [discriminate|].
    eexists; split; [reflexivity|].
    apply Forall_forall. intros item Hitem.
    apply in_map_iff in Hitem as (x & <- & Hx).
    pose proof (store_each_url _ _ _ (all_results_In _ _ _ Hall Hx)) as Hurl.
    unfold batch_item. rewrite Hurl.
    eapply url_shape_intro; reflexivity.
Qed.

(** ** Deleting by identifier *)


Lemma delete_image_run (i : string) (w : world) :
  delete_image i w =
  match find_by_id i (storage_search i (uploads w)) with
  | None => (inr (res_json 404 (error_body "File not found")), w)
  | Some f =>
      (inr (res_json 200
              (JObj [("message", JStr "Deleted"); ("filename", JStr (name f))])),
       {| uploads := filter (fun e => negb (String.eqb (name e) (name f)))
                            (uploads w);
          users := users w; draws := draws w |})
  end.
Proof.
  unfold delete_image, try_catch, bind, storage_list_search, storage_remove.
  destruct (find_by_id i _); [|reflexivity].
  cbn -[String.eqb].
  erewrite filter_ext; [reflexivity|].
  intros x; cbn -[String.eqb]. now rewrite orb_false_r.
Qed.


Lemma get_images_run (w : world) :
  get_images w =
  (inr (res_json 200
          (JArr (map image_item
                     (filter (fun f => image_name_test (name f))
                             (firstn 100 (uploads w)))))), w).
Proof. reflexivity. Qed.

End StorageFacts.

(* ===================================================================== *)
(** * Facts about the token service and the account handlers *)
(* ===================================================================== *)

Section AccountFacts.
Context {collab : Collaborators}.

Lemma seconds_plus_hour (t : N) :
  seconds (t + 3600000) = (seconds t + one_hour)%N.
Proof.
  unfold seconds, one_hour.
  replace (t + 3600000)%N with (t + 3600 * 1000)%N by lia.
  now rewrite N.div_add by discriminate.
Qed.

Lemma seconds_mono (a b : N) : (a <= b)%N -> (seconds a <= seconds b)%N.
Proof. intros H. unfold seconds. now apply N.Div0.div_le_mono. Qed.

Lemma seconds_plus_minutes (t m : N) :
  seconds (t + m * 60000) = (seconds t + m * 60)%N.
Proof.
  unfold seconds.
  replace (t + m * 60000)%N with (t + (m * 60) * 1000)%N by lia.
  now rewrite N.div_add by discriminate.
Qed.

(** Verification of a token this server signed: only the clock decides. *)
Lemma jwt_verify_signed (uid issued now : N) :
  (forall j, jwt_decode (jwt_encode j) = Some j) ->
  (forall j, jwt_encode j <> "") ->
  jwt_verify (jwt_sign uid jwt_secret issued) jwt_secret now =
  if (seconds issued + one_hour <=? seconds now)%N
  then inl (TokenExpiredError "jwt expired")
  else inr {| userId := uid; iat := seconds issued;
              exp := (seconds issued + one_hour)%N |}.
Proof.
  intros Hcodec Hne. unfold jwt_verify, jwt_sign.
  destruct (String.eqb_spec (jwt_encode
    {| payload := {| userId := uid; iat := seconds issued;
                     exp := (seconds issued + one_hour)%N |};
       signature := hs256 jwt_secret
                      {| userId := uid; iat := seconds issued;
                         exp := (seconds issued + one_hour)%N |} |}) "")
    as [E | _]; [now apply Hne in E|].
  rewrite Hcodec. cbn [payload signature exp].
  now rewrite String.eqb_refl.
Qed.

Lemma bearer_token (token : string) :
  has_char " " token = false ->
  split_nth " " 1 ("Bearer " ++ token) = Some token.
Proof.
  intros H. unfold split_nth, split.
  replace (split_segments " " ("Bearer " ++ token)) with ("Bearer", [token]);
    [reflexivity|].
  cbn [append split_segments]. now rewrite (split_segments_no_sep _ _ H).
Qed.

(** The gate answers 403 "Invalid token" to every bearer token that
    [jwt.verify] refuses. *)
Lemma gate_rejects (token : string) (now : N) (w : world) (e : js_error) :
  has_char " " token = false ->
  jwt_verify token jwt_secret now = inl e ->
  authenticateToken (Some ("Bearer " ++ token)) now w
  = (inr (Reject (res_json 403 (error_body "Invalid token"))), w).
Proof.
  intros Hsp Hv. unfold authenticateToken.
  rewrite (bearer_token token Hsp).
  cbn [String.eqb append startsWith negb orb Ascii.eqb].
  replace (String.eqb ("Bearer " ++ token) "") with false by reflexivity.
  replace (startsWith "Bearer " ("Bearer " ++ token)) with true
    by (symmetry; apply startsWith_app).
  cbn [negb orb]. unfold try_catch, bind. now rewrite Hv.
Qed.

(** The gate lets through a bearer token that verifies, with the account its
    [userId] names. *)
Lemma gate_accepts (token : string) (now : N) (w : world) (c : claims) (u : user) :
  has_char " " token = false ->
  jwt_verify token jwt_secret now = inr c ->
  single (filter (fun u => N.eqb (id u) (userId c)) (users w)) = Some u ->
  authenticateToken (Some ("Bearer " ++ token)) now w
  = (inr (Continue
            (JObj [("id", JNum (id u)); ("email", JStr (email u));
                   ("username", JStr (username u));
                   ("full_name", JStr (full_name u));
                   ("role", JStr (role u))])), w).
Proof.
  intros Hsp Hv Hu. unfold authenticateToken.
  rewrite (bearer_token token Hsp).
  replace (String.eqb ("Bearer " ++ token) "") with false by reflexivity.
  replace (startsWith "Bearer " ("Bearer " ++ token)) with true
    by (symmetry; apply startsWith_app).
  cbn [negb orb]. unfold try_catch, bind, user_by_id, ret.
  now rewrite Hv, Hu.
Qed.

(** C4. A token issued for [uid] at the clock [issued] (milliseconds)
    verifies, and yields [uid], as long as the clock is before its expiry,
    which is one hour after the second of the issue; it is refused as
    expired at any clock one hour or more past the issue; so it is accepted
    59 minutes after the issue and refused 61 minutes after. A token whose
    signature is not the MAC of its payload, and a token that does not
    decode, are refused; and the gate answers 403 "Invalid token" to every
    token that is refused. The wire codec is only assumed to decode what it
    encodes and never to produce the empty string. *)
Theorem token_issue_verify (uid issued now : N) (w : world) :
  (forall j, jwt_decode (jwt_encode j) = Some j) ->
  (forall j, jwt_encode j <> "") ->
  let token := jwt_sign uid jwt_secret issued in
  ((now < 1000 * (seconds issued + one_hour))%N ->
   exists c, jwt_verify token jwt_secret now = inr c /\ userId c = uid) /\
  ((issued + 3600000 <= now)%N ->
   jwt_verify token jwt_secret now = inl (TokenExpiredError "jwt expired")) /\
  (exists c, jwt_verify token jwt_secret (issued + 59 * 60000) = inr c /\
             userId c = uid) /\
  jwt_verify token jwt_secret (issued + 61 * 60000)
  = inl (TokenExpiredError "jwt expired") /\
  (forall t j,
     t <> "" -> jwt_decode t = Some j ->
     signature j <> hs256 jwt_secret (payload j) ->
     jwt_verify t jwt_secret now = inl (JsonWebTokenError "invalid signature")) /\
  (forall t, jwt_decode t = None ->
             exists e, jwt_verify t jwt_secret now = inl e) /\
  (forall t e,
     has_char " " t = false -> jwt_verify t jwt_secret now = inl e ->
     authenticateToken (Some ("Bearer " ++ t)) now w
     = (inr (Reject (res_json 403 (error_body "Invalid token"))), w)).
Proof.
  intros Hcodec Hne token. subst token. repeat split.
  - intros Hbefore. rewrite (jwt_verify_signed uid issued now Hcodec Hne).
    apply N.Div0.div_lt_upper_bound in Hbefore. fold (seconds now) in Hbefore.
    apply N.leb_gt in Hbefore. rewrite Hbefore. eauto.
  - intros Hafter. rewrite (jwt_verify_signed uid issued now Hcodec Hne).
    apply seconds_mono in Hafter. rewrite seconds_plus_hour in Hafter.
    apply N.leb_le in Hafter. now rewrite Hafter.
  - rewrite (jwt_verify_signed _ _ _ Hcodec Hne), seconds_plus_minutes.
    replace (seconds issued + one_hour <=? seconds issued + 59 * 60)%N
      with false by (symmetry; apply N.leb_gt; unfold one_hour; lia).
    eauto.
  - rewrite (jwt_verify_signed _ _ _ Hcodec Hne), seconds_plus_minutes.
    replace (seconds issued + one_hour <=? seconds issued + 61 * 60)%N
      with true by (symmetry; apply N.leb_le; unfold one_hour; lia).
    reflexivity.
  - intros t j Ht Hj Hsig. unfold jwt_verify.
    destruct (String.eqb_spec t ""); [contradiction|]. rewrite Hj.
    destruct (String.eqb_spec (signature j) (hs256 jwt_secret (payload j)));
      [contradiction | reflexivity].
  - intros t Ht. unfold jwt_verify. rewrite Ht.
    destruct (String.eqb t ""); eauto.
  - intros t e. apply gate_rejects.
Qed.

(** ** Register *)

(** A registration that goes through answers 201 with the whole stored row,
    the column [password] included. *)
Lemma register_created (b : account_body) (mail plain : string) (w : world) :
  body_email b = Some mail -> body_password b = Some plain ->
  mail <> "" -> plain <> "" ->
  single (filter (fun u => String.eqb (email u) mail) (users w)) = None ->
  register b w =
  (inr (res_json 201
          (JObj [("message", JStr "User created");
                 ("user", JObj (row_json (new_account b mail plain w)))])),
   {| uploads := uploads w;
      users := (users w ++ [new_account b mail plain w])%list;
      draws := S (draws w) |}).
Proof.
  intros Hm Hp Hmne Hpne Hnone.
  unfold register, try_catch, bind, user_by_email, bcrypt_hash_salted,
    insert_user, ret.
  rewrite Hm, Hp.
  destruct (String.eqb_spec mail ""); [contradiction|].
  destruct (String.eqb_spec plain ""); [contradiction|].
  cbn [orb]. rewrite Hnone. reflexivity.
Qed.

(** C1 (the code at the failing input). Registering [a@x.com] with the
    password [p] in an empty table is answered 201, and the [user] object of
    the answer has a [password] property: the hash that was stored. *)
Theorem register_returns_password_hash :
  let b := {| body_email := Some "a@x.com"; body_username := None;
              body_full_name := None; body_role := None;
              body_password := Some "p" |} in
  let w := {| uploads := []; users := []; draws := 0 |} in
  exists row w',
    register b w
    = (inr (res_json 201 (JObj [("message", JStr "User created");
                                ("user", JObj row)])), w') /\
    obj_get "password" row = Some (JStr (bcrypt_hash (random_bits 0) "p")) /\
    map password (users w') = [Some (bcrypt_hash (random_bits 0) "p")].
Proof.
  intros b w. eexists; eexists. split.
  - apply (register_created b "a@x.com" "p" w); try reflexivity; discriminate.
  - split; reflexivity.
Qed.

(** ** Login *)

(** C3 (as amended). A login with an unknown e-mail and a login whose
    password does not match the stored hash get the same answer, 401
    "Invalid email or password"; an account whose stored hash is absent or
    empty gets another one, 500 "Password not set correctly for this user.";
    a login that matches gets 200 with a token signed for the account's id
    at the clock of the request. *)
Theorem login_outcomes (b : account_body) (mail plain : string) (now : N)
        (w : world) :
  body_email b = Some mail -> body_password b = Some plain ->
  mail <> "" -> plain <> "" ->
  let found := single (filter (fun u => String.eqb (email u) mail) (users w)) in
  let invalid := res_json 401 (message_body "Invalid email or password") in
  (found = None -> login b now w = (inr invalid, w)) /\
  (forall u hash,
     found = Some u -> password u = Some hash -> hash <> "" ->
     bcrypt_compare plain hash = false ->
     login b now w = (inr invalid, w)) /\
  (forall u,
     found = Some u -> password u = None \/ password u = Some "" ->
     login b now w
     = (inr (res_json 500
               (message_body "Password not set correctly for this user.")), w)) /\
  (forall u hash,
     found = Some u -> password u = Some hash -> hash <> "" ->
     bcrypt_compare plain hash = true ->
     login b now w
     = (inr (res_json 200
               (JObj [("token", JStr (jwt_sign (id u) jwt_secret now))])), w)) /\
  invalid
  <> res_json 500 (message_body "Password not set correctly for this user.").
Proof.
  intros Hm Hp Hmne Hpne found invalid. subst found invalid.
  unfold login, try_catch, bind, user_by_email, ret.
  rewrite Hm, Hp.
  destruct (String.eqb_spec mail ""); [contradiction|].
  destruct (String.eqb_spec plain ""); [contradiction|].
  cbn [orb]. repeat split.
  - intros ->. reflexivity.
  - intros u hash -> Hh Hhne Hc. rewrite Hh.
    destruct (String.eqb_spec hash ""); [contradiction|].
    now rewrite Hc.
  - intros u -> [Hh | Hh]; now rewrite Hh.
  - intros u hash -> Hh Hhne Hc. rewrite Hh.
    destruct (String.eqb_spec hash ""); [contradiction|].
    now rewrite Hc.
  - discriminate.
Qed.

End AccountFacts.

(* ===================================================================== *)
(** * The handlers on concrete requests *)
(* ===================================================================== *)

Section Runs.
Import Demo.

(** ** Facts about the concrete collaborators *)

Lemma read_strokes_strokes (n : nat) (rest : string) :
  read_strokes (strokes n ++ String "." rest) = (N.of_nat n, String "." rest).
Proof.
  induction n as [|n IH].
  - reflexivity.
  - cbn [strokes append read_strokes]. rewrite IH.
    cbn [Ascii.eqb Bool.eqb]. now rewrite Nat2N.inj_succ.
Qed.

Lemma decode_encode (j : jws) : decode (encode j) = Some j.
Proof.
  destruct j as [[u i e] sig]. unfold decode, encode.
  cbn [payload signature userId iat exp].
  change ("." ++ ?x) with (String "." x).
  rewrite read_strokes_strokes. cbn [read_dot Ascii.eqb Bool.eqb].
  change ("." ++ strokes (N.to_nat e) ++ "." ++ sig)
    with (String "." (strokes (N.to_nat e) ++ String "." sig)).
  rewrite read_strokes_strokes. cbn [read_dot Ascii.eqb Bool.eqb].
  rewrite read_strokes_strokes. cbn [read_dot Ascii.eqb Bool.eqb].
  now rewrite !N2Nat.id.
Qed.

Lemma encode_not_empty (j : jws) : encode j <> "".
Proof.
  intros H. pose proof (decode_encode j) as D. rewrite H in D. discriminate.
Qed.


(** ** The object namer *)

(** An upload of [photo.final.PNG] in the empty bucket: the key is the
    identifier, a dot and [PNG], and the identifier is read back from it. *)
Lemma stored_object_key_shape_witness :
  exists r w',
    uploadToSupabase (collab := collaborators None)
                     (png "photo.final.PNG" 2048%N) empty_world = (inr r, w') /\
    stored_filename r = stored_id r ++ "." ++ "PNG" /\
    split_first "." (stored_filename r) = stored_id r.
Proof.
  eexists; eexists. split; [vm_compute; reflexivity|].
  pose proof (stored_object_key_shape (collab := collaborators None)
                (png "photo.final.PNG" 2048%N) empty_world _ _ eq_refl) as H.
  split; [exact (proj1 (proj2 (proj2 (proj2 H)))) |
          exact (proj1 (proj2 (proj2 (proj2 (proj2 (proj2 H))))))].
Defined.

(** ** The type filter *)

(** C2 (the code at the failing inputs). [fileFilter] accepts [report.pngx]
    declared [image/png], whose extension is none of the five, and
    [bundle.png] declared [text/x-webpack], which is not an image type, and
    the upload stage hands each of them on as [req.file]. The handler of
    [POST /upload], given the first as [req.file], stores it under a key
    that [GET /images] does not list. *)
Theorem fileFilter_accepts_unlisted :
  extension_is_listed (originalname pngx_file) = false /\
  fileFilter pngx_file = None /\
  upload_single [pngx_file] = inr (Some pngx_file) /\
  allowed_test (toLowerCase (split_pop "." (originalname webpack_file))) = true /\
  fileFilter webpack_file = None /\
  upload_single [webpack_file] = inr (Some webpack_file) /\
  map name (uploads (snd (upload_handler (collab := collaborators None)
                                         (Some pngx_file) empty_world)))
  = ["9e3779b9-7f4a-4c15-b39c-c0605cedc835.pngx"] /\
  image_name_test "9e3779b9-7f4a-4c15-b39c-c0605cedc835.pngx" = false.
Proof. repeat split; reflexivity. Qed.

(** ** Serving *)

(** A stored PNG is served as [image/jpeg], and without a cache header. *)
Lemma png_served_as_jpeg :
  map contentType (uploads png_world) = ["image/png"] /\
  exists r,
    fst (get_file "a.png" png_world) = inr r /\
    status r = 200 /\
    header_get "Content-Type" (headers r) = Some "image/jpeg" /\
    ~ (header_get "Content-Type" (headers r) = Some "image/png" /\
       header_get "Cache-Control" (headers r) <> None).
Proof.
  split; [reflexivity|]. eexists. split; [vm_compute; reflexivity|].
  split; [reflexivity|]. split; [reflexivity|].
  intros [H _]. discriminate.
Qed.

Lemma get_file_response_witness :
  find (fun e => String.eqb (name e) "a.png") (uploads png_world)
  = Some {| name := "a.png"; content := "PNGDATA"; contentType := "image/png" |} /\
  get_file "a.png" png_world
  = (inr {| status := 200; headers := [("Content-Type", "image/jpeg")];
            sent := Binary "PNGDATA" |}, png_world) /\
  has_key "z.png" (uploads png_world) = false /\
  get_file "z.png" png_world
  = (inr (res_json 404 (error_body "File not found")), png_world).
Proof.
  split; [reflexivity|].
  split; [exact (proj1 (get_file_response "a.png" png_world) _ eq_refl)|].
  split; [reflexivity|].
  exact (proj2 (get_file_response "z.png" png_world) eq_refl).
Defined.

(** ** Tokens *)

(** A token issued at second 1 is accepted at second 5. *)
Lemma token_issue_verify_witness :
  (forall j, jwt_decode (Collaborators := collaborators None)
               (jwt_encode (Collaborators := collaborators None) j) = Some j) /\
  (forall j, jwt_encode (Collaborators := collaborators None) j <> "") /\
  (5000 < 1000 * (seconds 1000 + one_hour))%N /\
  exists c,
    jwt_verify (collab := collaborators None)
               (jwt_sign (collab := collaborators None) 7%N "s3cret" 1000%N)
               "s3cret" 5000%N = inr c /\
    userId c = 7%N.
Proof.
  split; [exact decode_encode|]. split; [exact encode_not_empty|].
  assert (H : (5000 < 1000 * (seconds 1000 + one_hour))%N) by reflexivity.
  split; [exact H|].
  exact (proj1 (token_issue_verify (collab := collaborators None)
                  7%N 1000%N 5000%N empty_world decode_encode encode_not_empty) H).
Defined.

(** ** Login *)

(** An account without a stored hash is told apart from an unknown one: 500
    against 401. *)
Lemma login_missing_hash_is_distinguishable :
  single (filter (fun u => String.eqb (email u) "bob@x.com") (users two_accounts))
  = Some bob /\
  password bob = None /\
  single (filter (fun u => String.eqb (email u) "zed@x.com") (users two_accounts))
  = None /\
  fst (login (collab := collaborators None) (credentials "bob@x.com" "pw")
             1000%N two_accounts)
  = inr (res_json 500 (message_body "Password not set correctly for this user.")) /\
  fst (login (collab := collaborators None) (credentials "zed@x.com" "pw")
             1000%N two_accounts)
  = inr (res_json 401 (message_body "Invalid email or password")) /\
  fst (login (collab := collaborators None) (credentials "bob@x.com" "pw")
             1000%N two_accounts)
  <> fst (login (collab := collaborators None) (credentials "zed@x.com" "pw")
                1000%N two_accounts).
Proof.
  repeat (split; [reflexivity|]). vm_compute. discriminate.
Qed.

(** A wrong password for a known account gets the 401 of an unknown one. *)
Lemma login_outcomes_witness :
  body_email (credentials "ann@x.com" "guess") = Some "ann@x.com" /\
  body_password (credentials "ann@x.com" "guess") = Some "guess" /\
  "ann@x.com" <> "" /\ "guess" <> "" /\
  login (collab := collaborators None) (credentials "ann@x.com" "guess")
        1000%N two_accounts
  = (inr (res_json 401 (message_body "Invalid email or password")), two_accounts).
Proof.
  assert (Hm : "ann@x.com" <> "") by discriminate.
  assert (Hp : "guess" <> "") by discriminate.
  split; [reflexivity|]. split; [reflexivity|].
  split; [exact Hm|]. split; [exact Hp|].
  refine (proj1 (proj2 (login_outcomes (collab := collaborators None)
                          (credentials "ann@x.com" "guess") "ann@x.com" "guess"
                          1000%N two_accounts eq_refl eq_refl Hm Hp))
                ann (toy_hash 7 "secret") eq_refl eq_refl _ eq_refl).
  discriminate.
Defined.

End Runs.

(* ===================================================================== *)
(** * Further facts: the upload stage *)
(* ===================================================================== *)

Section UploadStageFacts.
Context {collab : Collaborators}.

(** X1. A file whose extension is one of the five names, in any case, and
    whose declared type is one of the usual image types is accepted. *)
Theorem fileFilter_accepts_listed (f : file) :
  extension_is_listed (originalname f) = true ->
  In (mimetype f) ["image/jpeg"; "image/jpg"; "image/png"; "image/gif";
                   "image/webp"] ->
  fileFilter f = None.
Proof.
  intros Hext Hmime. unfold fileFilter.
  rewrite (listed_extension_passes _ Hext).
  replace (allowed_test (mimetype f)) with true; [reflexivity|].
  simpl in Hmime.
  destruct Hmime as [<- | [<- | [<- | [<- | [<- | []]]]]]; reflexivity.
Qed.

(** X3. Whatever the file parts of the request and whatever the state,
    [POST /upload] and [POST /upload-multiple] answer the 500 page of
    Express's final handler and leave the bucket, the table and the random
    source as they were: [handleUploadError] declares three parameters, so
    Express passes it by when the upload stage ended with an error, and
    calls it with the request when it did not, where it throws; the handler
    that stores is never reached. *)
Theorem upload_routes_never_store (parts : list file) (w : world) :
  (exists e, post_upload parts w = (inr (final_handler e), w)) /\
  (exists e, post_upload_multiple parts w = (inr (final_handler e), w)).
Proof.
  rewrite post_upload_run, post_upload_multiple_run.
  split; eexists; reflexivity.
Qed.

End UploadStageFacts.

(* ===================================================================== *)
(** * Further facts: names and extensions *)
(* ===================================================================== *)

Section ExtensionFacts.

Lemma substring_all (s : string) : substring 0 (String.length s) s = s.
Proof. induction s as [|a s IH]; simpl; [reflexivity | now rewrite IH]. Qed.

Lemma substring_app_skip (a p : string) :
  substring (String.length a) (String.length p) (a ++ p) = p.
Proof. induction a as [|x a IH]; simpl; [apply substring_all | exact IH]. Qed.

Lemma substring_cut (s : string) :
  forall n, n <= String.length s ->
            s = substring 0 n s ++ substring n (String.length s - n) s.
Proof.
  induction s as [|a s IH]; intros n Hn; simpl in Hn.
  - now replace n with 0 by lia.
  - destruct n as [|n]; simpl.
    + now rewrite substring_all.
    + f_equal. apply IH. lia.
Qed.

Lemma length_app_str (a b : string) :
  String.length (a ++ b) = String.length a + String.length b.
Proof. induction a as [|x a IH]; simpl; [reflexivity | now rewrite IH]. Qed.

(** [endsWith] holds exactly of the strings that end with the pattern. *)
Lemma endsWith_iff (p s : string) :
  endsWith p s = true <-> exists a, s = a ++ p.
Proof.
  unfold endsWith. split.
  - intros H. apply andb_true_iff in H as [Hlen Heq].
    apply Nat.leb_le in Hlen. apply String.eqb_eq in Heq.
    exists (substring 0 (String.length s - String.length p) s).
    pose proof (substring_cut s (String.length s - String.length p)) as Hcut.
    replace (String.length s - (String.length s - String.length p))
      with (String.length p) in Hcut by lia.
    rewrite Heq in Hcut. apply Hcut. lia.
  - intros [a ->]. rewrite length_app_str. apply andb_true_iff. split.
    + apply Nat.leb_le. lia.
    + replace (String.length a + String.length p - String.length p)
        with (String.length a) by lia.
      rewrite substring_app_skip. apply String.eqb_refl.
Qed.

(** A name [a.b] ends with [.e] exactly when [b] is [e], the two being free
    of dots. *)
Lemma endsWith_dot_segment (a b e : string) :
  has_char "." b = false -> has_char "." e = false ->
  endsWith (String "." e) (a ++ String "." b) = String.eqb b e.
Proof.
  intros Hb He. destruct (String.eqb_spec b e) as [-> | Hne].
  - apply endsWith_iff. now exists a.
  - destruct (endsWith (String "." e) (a ++ String "." b)) eqn:E;
      [|reflexivity].
    apply endsWith_iff in E as [a' E]. exfalso. apply Hne.
    rewrite <- (split_pop_app "." a b Hb), E. now apply split_pop_app.
Qed.

Lemma toLowerCase_app (a b : string) :
  toLowerCase (a ++ b) = toLowerCase a ++ toLowerCase b.
Proof. induction a as [|x a IH]; simpl; [reflexivity | now rewrite IH]. Qed.

Lemma lower_ascii_dot (c : ascii) :
  Ascii.eqb (lower_ascii c) "." = Ascii.eqb c ".".
Proof. destruct c as [[] [] [] [] [] [] [] []]; reflexivity. Qed.

Lemma toLowerCase_dots (s : string) :
  has_char "." (toLowerCase s) = has_char "." s.
Proof.
  induction s as [|a s IH]; simpl; [reflexivity|].
  now rewrite lower_ascii_dot, IH.
Qed.

(** A name [a.b], with [b] free of dots, passes the filter of [GET /images]
    exactly when [b], lower-cased, is one of the five names. *)
Lemma image_name_test_segment (a b : string) :
  has_char "." b = false ->
  image_name_test (a ++ String "." b)
  = existsb (String.eqb (toLowerCase b)) ["jpg"; "jpeg"; "png"; "gif"; "webp"].
Proof.
  intros Hb. unfold image_name_test.
  rewrite toLowerCase_app. cbn [toLowerCase].
  change (lower_ascii ".") with "."%char.
  assert (Hfree : has_char "." (toLowerCase b) = false)
    by (now rewrite toLowerCase_dots).
  cbn [existsb].
  rewrite !(endsWith_dot_segment _ _ _ Hfree) by reflexivity.
  reflexivity.
Qed.

Lemma image_name_test_storage_key (i original : string) :
  image_name_test (storage_key i original) = extension_is_listed original.
Proof. apply image_name_test_segment, split_pop_free. Qed.

(** X4. The key under which a file is stored passes the filter of
    [GET /images] exactly when the extension of the original name is one of
    the five names, in any case. *)
Theorem stored_key_is_image_name (i original : string) :
  image_name_test (storage_key i original) = extension_is_listed original.
Proof.
  unfold extension_is_listed, storage_key.
  change (i ++ "." ++ split_pop "." original)
    with (i ++ String "." (split_pop "." original)).
  rewrite image_name_test_segment by apply split_pop_free.
  reflexivity.
Qed.



End ExtensionFacts.

(* ===================================================================== *)
(** * Further facts: storing, listing, serving and deleting together *)
(* ===================================================================== *)

Section BucketFacts.
Context {collab : Collaborators}.

Lemma find_filter_other (k nf : string) (l : list entry) :
  k <> nf ->
  find (fun e => String.eqb (name e) k)
       (filter (fun e => negb (String.eqb (name e) nf)) l)
  = find (fun e => String.eqb (name e) k) l.
Proof.
  intros Hne. induction l as [|a l IH]; simpl; [reflexivity|].
  destruct (String.eqb_spec (name a) nf) as [En | En]; simpl.
  - destruct (String.eqb_spec (name a) k) as [Ek | Ek]; [congruence | exact IH].
  - now rewrite IH.
Qed.

Lemma has_key_filter_self (nf : string) (l : list entry) :
  has_key nf (filter (fun e => negb (String.eqb (name e) nf)) l) = false.
Proof.
  induction l as [|a l IH]; simpl; [reflexivity|].
  destruct (String.eqb (name a) nf) eqn:E; simpl; [exact IH|].
  now rewrite E.
Qed.

(** ** Storing *)

Lemma upload_handler_200 (f : file) (w w' : world) (r : response) :
  upload_handler (Some f) w = (inr r, w') -> status r = 200 ->
  let key := storage_key (uuid_of_bits (random_bits (draws w)))
                         (originalname f) in
  has_key key (uploads w) = false /\
  json_get "filename" (match sent r with Json j => j | _ => JNull end)
  = Some (JStr key) /\
  (exists j, sent r = Json j) /\
  uploads w' = {| name := key; content := buffer f;
                  contentType := mimetype f |} :: uploads w.
Proof.
  intros Hrun Hok. rewrite upload_handler_run in Hrun; cbv zeta in Hrun.
  cbv zeta.
  destruct (has_key _ (uploads w)) eqn:Hk;
    inversion Hrun; subst r w'; [discriminate|].
  split; [reflexivity|]. split; [reflexivity|].
  split; [eexists; reflexivity | reflexivity].
Qed.

Lemma upload_handler_world (req_file : option file) (w : world) :
  snd (upload_handler req_file w) = w \/
  exists f, req_file = Some f /\
            snd (upload_handler req_file w) = snd (uploadToSupabase f w).
Proof.
  destruct req_file as [f|]; [right | now left].
  exists f. split; [reflexivity|].
  unfold upload_handler, try_catch, bind.
  now destruct (uploadToSupabase f w) as [[e | r] w1].
Qed.

Lemma upload_multiple_handler_world (req_files : list file) (w : world) :
  snd (upload_multiple_handler req_files w) = snd (store_each req_files w).
Proof.
  destruct req_files as [|f rest]; [reflexivity|].
  now rewrite upload_multiple_handler_run by discriminate.
Qed.

Lemma uploadToSupabase_bucket (f : file) (w : world) :
  uploads (snd (uploadToSupabase f w)) = uploads w \/
  exists e, uploads (snd (uploadToSupabase f w)) = e :: uploads w /\
            has_key (name e) (uploads w) = false /\
            content e = buffer f /\ contentType e = mimetype f.
Proof.
  rewrite uploadToSupabase_run; cbv zeta.
  destruct (has_key _ (uploads w)) eqn:Hk; [now left|].
  right. eexists. repeat split. exact Hk.
Qed.

Lemma store_each_bucket (P : list entry -> Prop) (fs : list file) :
  (forall b e, P b -> has_key (name e) b = false -> P (e :: b)) ->
  forall w, P (uploads w) -> P (uploads (snd (store_each fs w))).
Proof.
  intros Hstep. induction fs as [|f rest IH]; intros w Hw; simpl; [exact Hw|].
  pose proof (uploadToSupabase_bucket f w) as Hb.
  destruct (uploadToSupabase f w) as [o w1]. simpl in Hb.
  specialize (IH w1). destruct (store_each rest w1) as [os w2]. simpl in *.
  apply IH. destruct Hb as [-> | (e & -> & Hk & _)]; [exact Hw|].
  now apply Hstep.
Qed.

(** X6. The handlers of the two upload routes, run on the files the upload
    stage would hand them ([req.file], [req.files]), never remove or replace
    a stored object: every object of the bucket is still there, unchanged,
    afterwards; and when the key drawn for a file is already taken, the
    handler of [POST /upload] answers 500 and the bucket is as before. *)
Theorem uploads_never_overwrite (req_file : option file)
        (req_files : list file) (w : world) :
  (forall e, In e (uploads w) ->
             In e (uploads (snd (upload_handler req_file w))) /\
             In e (uploads (snd (upload_multiple_handler req_files w)))) /\
  (forall f,
     req_file = Some f ->
     has_key (storage_key (uuid_of_bits (random_bits (draws w))) (originalname f))
             (uploads w) = true ->
     fst (upload_handler req_file w)
     = inr (res_json 500 (error_body "Failed to upload image")) /\
     uploads (snd (upload_handler req_file w)) = uploads w).
Proof.
  split.
  - intros e He. split.
    + destruct (upload_handler_world req_file w) as [-> | (f & _ & ->)];
        [exact He|].
      destruct (uploadToSupabase_bucket f w) as [-> | (x & -> & _)];
        [exact He | now right].
    + rewrite upload_multiple_handler_world.
      apply (store_each_bucket (fun b => In e b)); [|exact He].
      intros b x Hb _. now right.
  - intros f -> Hk. rewrite upload_handler_run; cbv zeta.
    rewrite Hk. now split.
Qed.

(** ** Storing, then serving and listing *)

Lemma image_item_filename (e : entry) :
  json_get "filename" (image_item e) = Some (JStr (name e)).
Proof. reflexivity. Qed.

(** X7. What the handler of [POST /upload] stored for [req.file] is what
    [GET /file] serves: after a 200 of the handler, the [filename] of the
    answer names an object whose bytes are the bytes of the file. *)
Theorem upload_then_serve (f : file) (w w' : world) (r : response) :
  upload_handler (Some f) w = (inr r, w') -> status r = 200 ->
  exists j key,
    sent r = Json j /\
    json_get "filename" j = Some (JStr key) /\
    get_file key w'
    = (inr {| status := 200; headers := [("Content-Type", "image/jpeg")];
              sent := Binary (buffer f) |}, w').
Proof.
  intros Hrun Hok.
  destruct (upload_handler_200 f w w' r Hrun Hok) as (_ & Hname & [j Hj] & Hw).
  rewrite Hj in Hname. eexists j, _. split; [exact Hj|].
  split; [exact Hname|].
  unfold get_file, try_catch, bind, storage_download. rewrite Hw.
  cbn [find name]. now rewrite String.eqb_refl.
Qed.

(** X8. After a 200 of the handler of [POST /upload] for [req.file],
    [GET /images] lists the new object, first, exactly when the extension of
    the original name is one of the five names; a file with another
    extension is stored but never listed. *)
Theorem upload_then_list (f : file) (w w' : world) (r : response) :
  upload_handler (Some f) w = (inr r, w') -> status r = 200 ->
  exists j key items,
    sent r = Json j /\
    json_get "filename" j = Some (JStr key) /\
    fst (get_images w') = inr (res_json 200 (JArr items)) /\
    (extension_is_listed (originalname f) = true ->
     exists rest, items = image_item {| name := key; content := buffer f;
                                        contentType := mimetype f |} :: rest) /\
    (extension_is_listed (originalname f) = false ->
     forall item, In item items -> json_get "filename" item <> Some (JStr key)).
Proof.
  intros Hrun Hok.
  destruct (upload_handler_200 f w w' r Hrun Hok) as (_ & Hname & [j Hj] & Hw).
  rewrite Hj in Hname. eexists j, _, _. split; [exact Hj|].
  split; [exact Hname|]. rewrite get_images_run.
  split; [reflexivity|].
  rewrite Hw, firstn_cons. cbn [filter name].
  rewrite image_name_test_storage_key. split; intros Hext; rewrite Hext.
  - eexists. reflexivity.
  - intros item Hitem Hkey.
    apply in_map_iff in Hitem as (x & <- & Hx).
    apply filter_In in Hx as [_ Hx].
    rewrite image_item_filename in Hkey. injection Hkey as Hkey.
    rewrite Hkey, image_name_test_storage_key in Hx. congruence.
Qed.

(** X9. [GET /images] looks at the hundred newest objects only and keeps
    those with an image name, in the order of the bucket: it never returns
    more than a hundred items, each item is the entry of such an object, with
    an [id] free of dots, and the bucket is left as it is. *)
Theorem get_images_listing (w : world) :
  exists items,
    get_images w = (inr (res_json 200 (JArr items)), w) /\
    List.length items <= 100 /\
    (forall item,
       In item items <->
       exists e, In e (firstn 100 (uploads w)) /\
                 image_name_test (name e) = true /\ item = image_item e) /\
    (forall item, In item items ->
       exists i, json_get "id" item = Some (JStr i) /\ has_char "." i = false).
Proof.
  eexists. split; [apply get_images_run|]. split; [|split].
  - rewrite length_map.
    transitivity (List.length (firstn 100 (uploads w)));
      [apply filter_length_le | apply firstn_le_length].
  - intros item. rewrite in_map_iff. split.
    + intros (e & <- & He). apply filter_In in He as [He Hi]. now exists e.
    + intros (e & He & Hi & ->). exists e. split; [reflexivity|].
      now apply filter_In.
  - intros item Hitem. apply in_map_iff in Hitem as (e & <- & _).
    eexists. split; [reflexivity | apply split_first_free].
Qed.

(** ** Deleting by identifier, once and twice *)




(** ** Deleting, then serving *)

(** X10. After [DELETE /images/:id] has answered 200 for an object,
    [GET /file] answers 404 for its name, and answers for every other name
    what it answered before. *)
Theorem delete_then_serve (i : string) (w : world) (f : entry) :
  find_by_id i (storage_search i (uploads w)) = Some f ->
  let w1 := snd (delete_image i w) in
  get_file (name f) w1
  = (inr (res_json 404 (error_body "File not found")), w1) /\
  forall k, k <> name f -> fst (get_file k w1) = fst (get_file k w).
Proof.
  intros Hf w1.
  assert (Hw1 : uploads w1
                = filter (fun e => negb (String.eqb (name e) (name f)))
                         (uploads w))
    by (subst w1; now rewrite delete_image_run, Hf).
  clearbody w1. split.
  - unfold get_file, try_catch, bind, storage_download.
    rewrite find_has_key; [reflexivity|].
    rewrite Hw1. apply has_key_filter_self.
  - intros k Hk. unfold get_file, try_catch, bind, storage_download.
    rewrite Hw1, (find_filter_other k (name f) _ Hk).
    now destruct (find _ (uploads w)).
Qed.

End BucketFacts.

(* ===================================================================== *)
(** * Further facts: the gate, the profile and logout *)
(* ===================================================================== *)

Section GateFacts.
Context {collab : Collaborators}.

Lemma single_In {A} (l : list A) (x : A) : single l = Some x -> In x l.
Proof.
  destruct l as [|a [|b l]]; simpl; intros H; inversion H. now left.
Qed.

(** The object the gate attaches as [req.user]. *)
Lemma req_user_columns (u : user) :
  select_columns ["id"; "email"; "username"; "full_name"; "role"] (row_json u)
  = [("id", JNum (id u)); ("email", JStr (email u));
     ("username", JStr (username u)); ("full_name", JStr (full_name u));
     ("role", JStr (role u))].
Proof. reflexivity. Qed.

(** X12. The gate has four outcomes and reads only: without a header, or
    with one that does not start with [Bearer ], it answers 401 "No token";
    otherwise it answers 403 "Invalid token", or 403 "User not found", or
    lets the request through with five columns of an account of the table,
    the hash not among them. The world is never changed. *)
Theorem gate_outcomes (auth : option string) (now : N) (w : world) :
  exists g,
    authenticateToken auth now w = (inr g, w) /\
    ((auth = None \/ exists h, auth = Some h /\ startsWith "Bearer " h = false) ->
     g = Reject (res_json 401 (error_body "No token"))) /\
    (g = Reject (res_json 401 (error_body "No token")) \/
     g = Reject (res_json 403 (error_body "Invalid token")) \/
     g = Reject (res_json 403 (error_body "User not found")) \/
     exists u,
       In u (users w) /\
       g = Continue (JObj [("id", JNum (id u)); ("email", JStr (email u));
                           ("username", JStr (username u));
                           ("full_name", JStr (full_name u));
                           ("role", JStr (role u))])).
Proof.
  destruct auth as [h|]; cbn [authenticateToken].
  2:{ eexists. split; [reflexivity|]. split; [reflexivity | now left]. }
  destruct (String.eqb h "") eqn:Hempty; cbn [orb].
  { eexists. split; [reflexivity|]. split; [reflexivity | now left]. }
  destruct (startsWith "Bearer " h) eqn:Hb; cbn [negb].
  { unfold try_catch, bind, user_by_id, ret, throw.
    destruct (split_nth " " 1 h) as [token|].
    - destruct (jwt_verify token jwt_secret now) as [e | c].
      + eexists. split; [reflexivity|]. split.
        * intros [Hn | (h' & Hh & Hs)]; [discriminate|].
          inversion Hh; subst h'. congruence.
        * right; now left.
      + destruct (single (filter (fun u => N.eqb (id u) (userId c)) (users w)))
          as [u|] eqn:Hu.
        * eexists. split; [reflexivity|]. split.
          -- intros [Hn | (h' & Hh & Hs)]; [discriminate|].
             inversion Hh; subst h'. congruence.
          -- right; right; right. exists u. split; [|now rewrite req_user_columns].
             apply single_In in Hu. now apply filter_In in Hu.
        * eexists. split; [reflexivity|]. split.
          -- intros [Hn | (h' & Hh & Hs)]; [discriminate|].
             inversion Hh; subst h'. congruence.
          -- right; right; now left.
    - eexists. split; [reflexivity|]. split.
      + intros [Hn | (h' & Hh & Hs)]; [discriminate|].
        inversion Hh; subst h'. congruence.
      + right; now left. }
  eexists. split; [reflexivity|]. split; [reflexivity | now left].
Qed.

Lemma gate_world (auth : option string) (now : N) (w : world) :
  snd (authenticateToken auth now w) = w.
Proof. destruct (gate_outcomes auth now w) as (g & -> & _). reflexivity. Qed.

Lemma single_same_id (l : list user) (u : user) (n : N) :
  single (filter (fun x => N.eqb (id x) n) l) = Some u ->
  single (filter (fun x => N.eqb (id x) (id u)) l) = Some u.
Proof.
  intros H. pose proof (single_In _ _ H) as Hin.
  apply filter_In in Hin as [_ Hid]. apply N.eqb_eq in Hid. now rewrite Hid.
Qed.

(** X13. [GET /me] with a bearer token that verifies, for an account the
    table holds once, answers 200 with six columns of that account: the id,
    the names, the role, the bio and the update time, and neither the e-mail
    nor the hash. *)
Theorem profile_of_valid_token (token : string) (now : N) (w : world)
        (c : claims) (u : user) :
  has_char " " token = false ->
  jwt_verify token jwt_secret now = inr c ->
  single (filter (fun x => N.eqb (id x) (userId c)) (users w)) = Some u ->
  get_me (Some ("Bearer " ++ token)) now w
  = (inr (res_json 200
            (JObj [("id", JNum (id u)); ("username", JStr (username u));
                   ("full_name", JStr (full_name u)); ("role", JStr (role u));
                   ("bio", json_opt (bio u));
                   ("updated_at", json_opt (updated_at u))])), w).
Proof.
  intros Hsp Hv Hu. unfold get_me, behind_gate, bind at 1.
  rewrite (gate_accepts token now w c u Hsp Hv Hu).
  unfold try_catch, bind, user_by_id, ret.
  change (req_user_id
            (JObj [("id", JNum (id u)); ("email", JStr (email u));
                   ("username", JStr (username u));
                   ("full_name", JStr (full_name u)); ("role", JStr (role u))]))
    with (Some (id u)).
  cbv beta iota. now rewrite (single_same_id _ _ _ Hu).
Qed.

(** X14. [POST /logout] changes nothing: it answers what the gate answers,
    200 only when the gate lets the request through, and the world after it
    is the world before it, so the gate decides every later request, with the
    same token or another, as it would have without the logout. *)
Theorem logout_changes_nothing (auth : option string) (now : N) (w : world) :
  exists r,
    logout auth now w = (inr r, w) /\
    (status r = 200 <->
     exists j, authenticateToken auth now w = (inr (Continue j), w)) /\
    forall auth' later,
      authenticateToken auth' later (snd (logout auth now w))
      = authenticateToken auth' later w.
Proof.
  unfold logout, behind_gate, bind.
  destruct (gate_outcomes auth now w) as (g & Hg & _ & Hcases). rewrite Hg.
  destruct Hcases as [-> | [-> | [-> | (u & _ & ->)]]].
  1-3: eexists; split; [reflexivity|]; split; [|intros; reflexivity];
       split; [intros H; discriminate | intros (j & Hj); discriminate].
  eexists; split; [reflexivity|]; split; [|intros; reflexivity].
  split; [intros _; eexists; reflexivity | reflexivity].
Qed.

End GateFacts.

(* ===================================================================== *)
(** * Further facts: register and login together *)
(* ===================================================================== *)

Section AccountLifeFacts.
Context {collab : Collaborators}.

(** X15. [POST /register] refuses without touching the table: with the
    e-mail or the password absent or empty it answers 400 "Email and password
    required", and with an e-mail that exactly one account has it answers 409
    "Email already exists". *)
Theorem register_refusals (b : account_body) (w : world) :
  (body_email b = None \/ body_email b = Some "" \/
   body_password b = None \/ body_password b = Some "" ->
   register b w
   = (inr (res_json 400 (error_body "Email and password required")), w)) /\
  (forall mail plain u,
     body_email b = Some mail -> body_password b = Some plain ->
     mail <> "" -> plain <> "" ->
     single (filter (fun x => String.eqb (email x) mail) (users w)) = Some u ->
     register b w = (inr (res_json 409 (error_body "Email already exists")), w)).
Proof.
  split.
  - intros H. unfold register, try_catch, bind, ret.
    destruct (body_email b) as [mail|], (body_password b) as [plain|];
      try reflexivity.
    destruct H as [H | [H | [H | H]]]; try discriminate; inversion H; subst.
    + reflexivity.
    + now rewrite orb_true_r.
  - intros mail plain u Hm Hp Hmne Hpne Hu.
    unfold register, try_catch, bind, user_by_email, ret. rewrite Hm, Hp.
    destruct (String.eqb_spec mail ""); [contradiction|].
    destruct (String.eqb_spec plain ""); [contradiction|].
    cbn [orb]. now rewrite Hu.
Qed.

(** What a 201 of [POST /register] means. *)
Lemma register_201 (b : account_body) (w w' : world) (r : response) :
  register b w = (inr r, w') -> status r = 201 ->
  exists mail plain,
    body_email b = Some mail /\ body_password b = Some plain /\
    mail <> "" /\ plain <> "" /\
    single (filter (fun x => String.eqb (email x) mail) (users w)) = None /\
    r = res_json 201
          (JObj [("message", JStr "User created");
                 ("user", JObj (row_json (new_account b mail plain w)))]) /\
    w' = {| uploads := uploads w;
            users := (users w ++ [new_account b mail plain w])%list;
            draws := S (draws w) |}.
Proof.
  intros Hrun Hok.
  destruct (body_email b) as [mail|] eqn:Hm.
  2:{ unfold register, try_catch, bind, ret in Hrun. rewrite Hm in Hrun.
      inversion Hrun; subst r. discriminate. }
  destruct (body_password b) as [plain|] eqn:Hp.
  2:{ unfold register, try_catch, bind, ret in Hrun. rewrite Hm, Hp in Hrun.
      inversion Hrun; subst r. discriminate. }
  destruct (String.eqb_spec mail "") as [-> | Hmne].
  { unfold register, try_catch, bind, ret in Hrun. rewrite Hm, Hp in Hrun.
    inversion Hrun; subst r. discriminate. }
  destruct (String.eqb_spec plain "") as [-> | Hpne].
  { rewrite (proj1 (register_refusals b w)) in Hrun
      by (right; right; right; exact Hp).
    inversion Hrun; subst r. discriminate. }
  destruct (single (filter (fun x => String.eqb (email x) mail) (users w)))
    as [u|] eqn:Hu.
  { rewrite (proj2 (register_refusals b w) mail plain u Hm Hp Hmne Hpne Hu)
      in Hrun. inversion Hrun; subst r. discriminate. }
  rewrite (register_created b mail plain w Hm Hp Hmne Hpne Hu) in Hrun.
  inversion Hrun. exists mail, plain. repeat split; assumption.
Qed.

(** X16. The row a 201 of [POST /register] adds, at the end of the table and
    without touching the other rows or the bucket: its e-mail is the one
    given; its role is the one asked when that is [user], [admin] or
    [moderator], and [user] in every other case; its username is the one
    given, or the part of the e-mail before the first [@] when none or an
    empty one is given; its password column holds the hash, which the answer
    returns with the row. *)
Theorem register_stores (b : account_body) (w w' : world) (r : response) :
  register b w = (inr r, w') -> status r = 201 ->
  exists mail plain u,
    body_email b = Some mail /\ body_password b = Some plain /\
    users w' = (users w ++ [u])%list /\ uploads w' = uploads w /\
    email u = mail /\
    password u = Some (bcrypt_hash (random_bits (draws w)) plain) /\
    In (role u) ["user"; "admin"; "moderator"] /\
    (forall rl, body_role b = Some rl -> In rl ["user"; "admin"; "moderator"] ->
                role u = rl) /\
    (forall rl, body_role b = Some rl -> ~ In rl ["user"; "admin"; "moderator"] ->
                role u = "user") /\
    (body_username b = None \/ body_username b = Some "" ->
     username u = split_first "@" mail) /\
    (forall n, body_username b = Some n -> n <> "" -> username u = n) /\
    sent r = Json (JObj [("message", JStr "User created");
                         ("user", JObj (row_json u))]).
Proof.
  intros Hrun Hok.
  destruct (register_201 b w w' r Hrun Hok)
    as (mail & plain & Hm & Hp & _ & _ & _ & -> & ->).
  exists mail, plain, (new_account b mail plain w).
  assert (Hrole : forall rl, existsb (String.eqb rl) ["user"; "admin"; "moderator"]
                             = true <-> In rl ["user"; "admin"; "moderator"]).
  { intros rl. rewrite existsb_exists. split.
    - intros (x & Hx & E). apply String.eqb_eq in E. now subst.
    - intros H. exists rl. split; [assumption | apply String.eqb_refl]. }
  repeat split; try assumption; cbn [new_account role username].
  - unfold assigned_role. destruct (body_role b) as [rl|]; [|simpl; tauto].
    destruct (existsb (String.eqb rl) _) eqn:E; [now apply Hrole | simpl; tauto].
  - intros rl -> Hin. unfold assigned_role.
    now rewrite (proj2 (Hrole rl) Hin).
  - intros rl -> Hout. unfold assigned_role.
    destruct (existsb (String.eqb rl) _) eqn:E; [|reflexivity].
    now apply Hrole in E.
  - intros [-> | ->]; reflexivity.
  - intros n -> Hn. unfold or_else.
    now destruct (String.eqb_spec n "").
Qed.

Lemma filter_email_NoDup (mail : string) (l : list user) :
  NoDup (map email l) ->
  single (filter (fun x => String.eqb (email x) mail) l) = None ->
  filter (fun x => String.eqb (email x) mail) l = [] /\ ~ In mail (map email l).
Proof.
  induction l as [|a l IH]; simpl; intros Hnd Hs; [now split|].
  inversion Hnd as [|? ? Hnotin Hnd']; subst.
  destruct (String.eqb_spec (email a) mail) as [E | E].
  - exfalso. subst mail.
    assert (Hempty : filter (fun x => String.eqb (email x) (email a)) l = []).
    { destruct (filter _ l) as [|x rest] eqn:F; [reflexivity|].
      exfalso. apply Hnotin.
      assert (In x (filter (fun x => String.eqb (email x) (email a)) l))
        by (rewrite F; now left).
      apply filter_In in H as [Hin Hx]. apply String.eqb_eq in Hx.
      rewrite <- Hx. now apply in_map. }
    rewrite Hempty in Hs. discriminate.
  - destruct (IH Hnd' Hs) as [Hf Hn]. split; [assumption|].
    intros [H | H]; [contradiction | now apply Hn].
Qed.

(** X17. A registration handled in isolation keeps e-mails unique. The
    handler is run here as one piece from the state [w]: no other request
    changes the table between its look-up of the e-mail and its insert.
    Then, when no two accounts of [w] share an e-mail, no two do afterwards,
    whatever the handler answers. Nothing is said of registrations that
    interleave. *)
Theorem emails_stay_unique (b : account_body) (w : world) :
  NoDup (map email (users w)) ->
  NoDup (map email (users (snd (register b w)))).
Proof.
  intros Hnd.
  destruct (register b w) as [[e | r] w'] eqn:Hrun.
  - exfalso. unfold register, try_catch in Hrun.
    match type of Hrun with
    | (let (_, _) := ?c in _) = _ => destruct c as [[e' | r'] w1]
    end; discriminate.
  - destruct (Nat.eq_dec (status r) 201) as [Hok | Hno].
    + destruct (register_201 b w w' r Hrun Hok)
        as (mail & plain & _ & _ & _ & _ & Hs & _ & ->).
      cbn [snd users]. rewrite map_app. cbn [map new_account email].
      destruct (filter_email_NoDup mail (users w) Hnd Hs) as [_ Hn].
      apply NoDup_app; [assumption | repeat constructor; simpl; tauto|].
      intros x Hx [<- | []]. contradiction.
    + (* every other answer leaves the table as it is *)
      assert (w' = w); [|now subst].
      unfold register, try_catch, bind, user_by_email, bcrypt_hash_salted,
        insert_user, ret in Hrun.
      destruct (body_email b) as [mail|], (body_password b) as [plain|];
        try (now inversion Hrun).
      destruct (String.eqb mail "" || String.eqb plain ""); [now inversion Hrun|].
      destruct (single _); inversion Hrun; subst; [reflexivity|].
      now contradiction Hno.
Qed.

(** X18. Register, then log in: in a table with unique e-mails, after a 201
    of [POST /register] a login with the same e-mail and password is
    answered 200 with a token signed for the new account, provided the hash
    primitive verifies the hash it made and that hash is not empty. *)
Theorem register_then_login (b : account_body) (w w' : world) (r : response)
        (plain : string) (now : N) :
  NoDup (map email (users w)) ->
  register b w = (inr r, w') -> status r = 201 ->
  body_password b = Some plain ->
  bcrypt_compare plain (bcrypt_hash (random_bits (draws w)) plain) = true ->
  bcrypt_hash (random_bits (draws w)) plain <> "" ->
  exists u,
    In u (users w') /\ body_email b = Some (email u) /\
    login b now w'
    = (inr (res_json 200
              (JObj [("token", JStr (jwt_sign (id u) jwt_secret now))])), w').
Proof.
  intros Hnd Hrun Hok Hp Hcmp Hne.
  destruct (register_201 b w w' r Hrun Hok)
    as (mail & plain' & Hm & Hp' & Hmne & Hpne & Hs & _ & ->).
  rewrite Hp in Hp'. inversion Hp'; subst plain'.
  exists (new_account b mail plain w). split; [|split].
  - cbn [users]. apply in_or_app. right. now left.
  - exact Hm.
  - destruct (filter_email_NoDup mail (users w) Hnd Hs) as [Hf _].
    unfold login, try_catch, bind, user_by_email, ret. rewrite Hm, Hp.
    destruct (String.eqb_spec mail ""); [contradiction|].
    destruct (String.eqb_spec plain ""); [contradiction|].
    cbn [orb users]. rewrite filter_app, Hf.
    cbn [filter new_account email app]. rewrite String.eqb_refl.
    cbn [single].
    change (password (new_account b mail plain w))
      with (Some (bcrypt_hash (random_bits (draws w)) plain)).
    cbv beta iota.
    destruct (String.eqb_spec (bcrypt_hash (random_bits (draws w)) plain) "");
      [contradiction|].
    now rewrite Hcmp.
Qed.

(** X19. Register twice: in a table with unique e-mails, after a 201 of
    [POST /register] a second registration with the same e-mail, whatever
    its other fields and its non-empty password, is answered 409 and adds
    nothing. *)
Theorem register_twice (b b2 : account_body) (w w' : world) (r : response)
        (mail plain2 : string) :
  NoDup (map email (users w)) ->
  register b w = (inr r, w') -> status r = 201 ->
  body_email b = Some mail ->
  body_email b2 = Some mail -> body_password b2 = Some plain2 -> plain2 <> "" ->
  register b2 w' = (inr (res_json 409 (error_body "Email already exists")), w').
Proof.
  intros Hnd Hrun Hok Hm Hm2 Hp2 Hne2.
  destruct (register_201 b w w' r Hrun Hok)
    as (mail' & plain & Hm' & Hp & Hmne & Hpne & Hs & _ & ->).
  rewrite Hm in Hm'. inversion Hm'; subst mail'.
  destruct (filter_email_NoDup mail (users w) Hnd Hs) as [Hf _].
  apply (proj2 (register_refusals b2 _) mail plain2
               (new_account b mail plain w) Hm2 Hp2 Hmne Hne2).
  cbn [users]. rewrite filter_app, Hf.
  cbn [filter new_account email app]. now rewrite String.eqb_refl.
Qed.

(** X20. [POST /login] reads only, and gives a token only for a match: the
    world is never changed, and an answer 200 means that the table holds
    exactly one account with the e-mail given, that its stored hash matches
    the password given, and that the token is signed for the id of that
    account at the clock of the request. *)
Theorem login_token_only_for_match (b : account_body) (now : N) (w : world) :
  exists r,
    login b now w = (inr r, w) /\
    (status r = 200 ->
     exists mail plain u hash,
       body_email b = Some mail /\ body_password b = Some plain /\
       filter (fun x => String.eqb (email x) mail) (users w) = [u] /\
       password u = Some hash /\ bcrypt_compare plain hash = true /\
       r = res_json 200
             (JObj [("token", JStr (jwt_sign (id u) jwt_secret now))])).
Proof.
  unfold login, try_catch, bind, user_by_email, ret.
  destruct (body_email b) as [mail|], (body_password b) as [plain|];
    try (eexists; split; [reflexivity | discriminate]).
  destruct (String.eqb mail "" || String.eqb plain "");
    [eexists; split; [reflexivity | discriminate]|].
  destruct (filter (fun x => String.eqb (email x) mail) (users w))
    as [|u [|v rest]] eqn:Hf; cbn [single];
    try (eexists; split; [reflexivity | discriminate]).
  destruct (password u) as [hash|] eqn:Hh;
    [|eexists; split; [reflexivity | discriminate]].
  destruct (String.eqb hash "");
    [eexists; split; [reflexivity | discriminate]|].
  destruct (bcrypt_compare plain hash) eqn:Hc; cbn [negb];
    [|eexists; split; [reflexivity | discriminate]].
  eexists. split; [reflexivity|]. intros _.
  exists mail, plain, u, hash. repeat split; assumption.
Qed.

Lemma filter_nothing {A} (p : A -> bool) (l : list A) :
  (forall x, In x l -> p x = false) -> filter p l = [].
Proof.
  induction l as [|a l IH]; intros H; simpl; [reflexivity|].
  rewrite (H a) by now left. apply IH. intros x Hx. apply H. now right.
Qed.

Lemma single_filter_id (l : list user) (u : user) :
  NoDup (map id l) -> In u l ->
  single (filter (fun x => N.eqb (id x) (id u)) l) = Some u.
Proof.
  induction l as [|a l IH]; simpl; intros Hnd Hin; [contradiction|].
  inversion Hnd as [|? ? Hnotin Hnd']; subst.
  assert (Hrest : forall v, In v l -> id v <> id a).
  { intros v Hv E. apply Hnotin. rewrite <- E. now apply in_map. }
  destruct Hin as [-> | Hin].
  - rewrite N.eqb_refl, filter_nothing; [reflexivity|].
    intros x Hx. apply N.eqb_neq. now apply Hrest.
  - destruct (N.eqb_spec (id a) (id u)) as [E | _].
    + exfalso. apply (Hrest u Hin). now symmetry.
    + now apply IH.
Qed.

(** X21. Log in, then pass the gate: in a table with unique ids, the token
    of a 200 of [POST /login] at the clock [issued], sent as
    [Bearer <token>], is let through by the gate with the columns of the
    account that logged in at every clock before the token's expiry, and is
    answered 403 "Invalid token" at every clock one hour or more after the
    login. The wire codec is assumed to decode what it encodes, and the
    token to be non-empty and free of spaces. *)
Theorem login_then_gate (b : account_body) (issued : N) (w : world)
        (r : response) (mail : string) :
  (forall j, jwt_decode (jwt_encode j) = Some j) ->
  (forall j, jwt_encode j <> "") ->
  (forall uid, has_char " " (jwt_sign uid jwt_secret issued) = false) ->
  NoDup (map id (users w)) ->
  body_email b = Some mail ->
  fst (login b issued w) = inr r -> status r = 200 ->
  exists u token,
    In u (users w) /\ email u = mail /\
    sent r = Json (JObj [("token", JStr token)]) /\
    (forall later,
       (later < 1000 * (seconds issued + one_hour))%N ->
       authenticateToken (Some ("Bearer " ++ token)) later w
       = (inr (Continue
                 (JObj [("id", JNum (id u)); ("email", JStr mail);
                        ("username", JStr (username u));
                        ("full_name", JStr (full_name u));
                        ("role", JStr (role u))])), w)) /\
    (forall later,
       (issued + 3600000 <= later)%N ->
       authenticateToken (Some ("Bearer " ++ token)) later w
       = (inr (Reject (res_json 403 (error_body "Invalid token"))), w)).
Proof.
  intros Hcodec Hne Hsp Hids Hm Hrun Hok.
  destruct (login_token_only_for_match b issued w) as (r' & Hl & Hmatch).
  rewrite Hl in Hrun. cbn [fst] in Hrun. inversion Hrun; subst r'.
  destruct (Hmatch Hok) as (mail' & plain & u & hash & Hm' & _ & Hf & _ & _ & ->).
  rewrite Hm in Hm'. inversion Hm'; subst mail'.
  assert (Hu : In u (filter (fun x => String.eqb (email x) mail) (users w)))
    by (rewrite Hf; now left).
  apply filter_In in Hu as [Hin Hmail]. apply String.eqb_eq in Hmail.
  exists u, (jwt_sign (id u) jwt_secret issued).
  split; [exact Hin|]. split; [exact Hmail|]. split; [reflexivity|]. split.
  - intros later Hbefore. rewrite <- Hmail.
    apply (gate_accepts _ later w
             {| userId := id u; iat := seconds issued;
                exp := (seconds issued + one_hour)%N |} u (Hsp (id u))).
    + rewrite (jwt_verify_signed _ _ _ Hcodec Hne).
      apply N.Div0.div_lt_upper_bound in Hbefore. fold (seconds later) in Hbefore.
      apply N.leb_gt in Hbefore. now rewrite Hbefore.
    + now apply single_filter_id.
  - intros later Hafter.
    apply (gate_rejects _ later w (TokenExpiredError "jwt expired") (Hsp (id u))).
    rewrite (jwt_verify_signed _ _ _ Hcodec Hne).
    apply seconds_mono in Hafter. rewrite seconds_plus_hour in Hafter.
    apply N.leb_le in Hafter. now rewrite Hafter.
Qed.

End AccountLifeFacts.

(* ===================================================================== *)
(** * The further facts on concrete requests *)
(* ===================================================================== *)

Section MoreRuns.
Import Demo.

Lemma strokes_no_space (n : nat) : has_char " " (strokes n) = false.
Proof. induction n as [|n IH]; [reflexivity | exact IH]. Qed.

Lemma demo_token_no_space (uid issued : N) :
  has_char " " (jwt_sign (collab := collaborators None) uid
                         (jwt_secret (Collaborators := collaborators None))
                         issued) = false.
Proof.
  unfold jwt_sign. cbn [jwt_encode jwt_secret hs256 collaborators].
  unfold encode, toy_mac. cbn [payload signature userId iat exp].
  rewrite !has_char_app, !strokes_no_space. reflexivity.
Qed.

Lemma fileFilter_accepts_listed_witness :
  extension_is_listed (originalname (png "Cat.PNG" 10%N)) = true /\
  fileFilter (png "Cat.PNG" 10%N) = None.
Proof.
  assert (H : extension_is_listed (originalname (png "Cat.PNG" 10%N)) = true)
    by reflexivity.
  split; [exact H|].
  apply (fileFilter_accepts_listed (png "Cat.PNG" 10%N) H).
  right; right; left; reflexivity.
Defined.

(** ** The upload routes *)

(** An 11 MiB picture and an 11 MiB text file sent to [POST /upload]: the
    upload stage ends with the size error for the first and with the type
    error for the second, and the answer is the 500 page both times. *)
Lemma oversized_upload_answer_witness :
  (exists e,
     post_upload (collab := collaborators None) [big_png] empty_world
     = (inr (final_handler e), empty_world) /\
     is_multer_error "LIMIT_FILE_SIZE" e = true /\
     handleUploadError e
     = res_json 400 (error_body "File too large. Max 10MB.")) /\
  (exists e,
     post_upload (collab := collaborators None) [big_text] empty_world
     = (inr (final_handler e), empty_world) /\
     fileFilter big_text = Some e /\
     handleUploadError e
     = res_json 400 (error_body "Only image files are allowed")).
Proof.
  split.
  - destruct (oversized_upload_answer (collab := collaborators None)
                big_png empty_world)
      as (e & _ & Hrun & _ & Hsize & _); [reflexivity|].
    exists e. split; [exact Hrun|]. apply Hsize. reflexivity.
  - destruct (oversized_upload_answer (collab := collaborators None)
                big_text empty_world)
      as (e & _ & Hrun & _ & _ & Htype); [reflexivity|].
    exists e. split; [exact Hrun|]. apply Htype. discriminate.
Defined.

(** Three pictures sent to [POST /upload-multiple]: the answer is the 500
    page for the [TypeError], although the handler, given the three files,
    answers 200; and eleven pictures end the upload stage with
    [LIMIT_UNEXPECTED_FILE]. *)
Lemma batch_upload_answer_witness :
  post_upload_multiple (collab := collaborators None) three_pngs empty_world
  = (inr (final_handler includes_of_undefined), empty_world) /\
  (exists rs,
     fst (upload_multiple_handler (collab := collaborators None)
                                  three_pngs empty_world)
     = inr (res_json 200
              (JObj [("message", JStr "Uploaded successfully");
                     ("files",
                      JArr (map (batch_item (collab := collaborators None))
                                rs))]))) /\
  (exists err,
     upload_array 10 eleven_pngs = inl err /\
     is_multer_error "LIMIT_UNEXPECTED_FILE" err = true).
Proof.
  split; [|split].
  - destruct (proj1 (batch_upload_answer (collab := collaborators None)
                       three_pngs empty_world)) as (e & Hrun & _ & He).
    cbv in He. rewrite Hrun, He. reflexivity.
  - assert (Hlen : List.length three_pngs <= 10) by (cbv; lia).
    assert (Hne : three_pngs <> []) by discriminate.
    destruct (proj2 (proj2 (batch_upload_answer (collab := collaborators None)
                              three_pngs empty_world)) Hlen Hne eq_refl)
      as (_ & _ & _ & Hall & _).
    assert (Hrs : exists rs,
               fst (store_each (collab := collaborators None)
                               three_pngs empty_world) = map inr rs)
      by (eexists (_ :: _ :: _ :: nil)%list; vm_compute; reflexivity).
    destruct Hrs as [rs Hrs]. exists rs. now apply Hall.
  - assert (Hlen : 10 < List.length eleven_pngs) by (cbv; lia).
    destruct (proj1 (proj2 (batch_upload_answer (collab := collaborators None)
                              eleven_pngs empty_world)) Hlen)
      as (err & Herr & Hcode).
    exists err. split; [exact Herr|]. apply Hcode. reflexivity.
Defined.

(** ** Returned addresses *)

Lemma upload_url_shape_witness :
  exists r w',
    upload_handler (collab := collaborators (Some "https://api.example.com"))
                   (Some (png "a.png" 5%N)) empty_world = (inr r, w') /\
    status r = 200 /\
    exists j, sent r = Json j /\
              url_shape (collab := collaborators (Some "https://api.example.com")) j.
Proof.
  assert (Hrun : exists r w',
             upload_handler
               (collab := collaborators (Some "https://api.example.com"))
               (Some (png "a.png" 5%N)) empty_world = (inr r, w') /\
             status r = 200)
    by (eexists; eexists; split; [vm_compute; reflexivity | reflexivity]).
  destruct Hrun as (r & w' & Hrun & Hok).
  exists r, w'. split; [exact Hrun|]. split; [exact Hok|].
  exact (proj1 (upload_url_shape
                  (collab := collaborators (Some "https://api.example.com"))
                  (Some (png "a.png" 5%N)) [] empty_world w' r Hok) Hrun).
Defined.

(** ** Deleting *)



(** ** Storing, serving and listing *)

Lemma uploads_never_overwrite_witness :
  In {| name := "a.png"; content := "PNGDATA"; contentType := "image/png" |}
     (uploads png_world) /\
  In {| name := "a.png"; content := "PNGDATA"; contentType := "image/png" |}
     (uploads (snd (upload_handler (collab := collaborators None)
                                   (Some (png "b.png" 5%N)) png_world))).
Proof.
  assert (H : In {| name := "a.png"; content := "PNGDATA";
                    contentType := "image/png" |} (uploads png_world))
    by (left; reflexivity).
  split; [exact H|].
  exact (proj1 (proj1 (uploads_never_overwrite (collab := collaborators None)
                         (Some (png "b.png" 5%N)) [] png_world) _ H)).
Defined.

Lemma upload_then_serve_witness :
  exists r w',
    upload_handler (collab := collaborators None)
                   (Some (png "a.png" 5%N)) empty_world = (inr r, w') /\
    status r = 200 /\
    exists key, get_file key w'
                = (inr {| status := 200;
                          headers := [("Content-Type", "image/jpeg")];
                          sent := Binary "PNG" |}, w').
Proof.
  assert (Hrun : exists r w',
             upload_handler (collab := collaborators None)
                            (Some (png "a.png" 5%N)) empty_world = (inr r, w') /\
             status r = 200)
    by (eexists; eexists; split; [vm_compute; reflexivity | reflexivity]).
  destruct Hrun as (r & w' & Hrun & Hok).
  exists r, w'. split; [exact Hrun|]. split; [exact Hok|].
  destruct (upload_then_serve (collab := collaborators None)
              (png "a.png" 5%N) empty_world w' r Hrun Hok)
    as (j & key & _ & _ & Hserve).
  exists key. exact Hserve.
Defined.

Lemma upload_then_list_witness :
  exists r w',
    upload_handler (collab := collaborators None)
                   (Some pngx_file) empty_world = (inr r, w') /\
    status r = 200 /\
    extension_is_listed (originalname pngx_file) = false /\
    exists key items,
      fst (get_images (collab := collaborators None) w')
      = inr (res_json 200 (JArr items)) /\
      forall item, In item items -> json_get "filename" item <> Some (JStr key).
Proof.
  assert (Hrun : exists r w',
             upload_handler (collab := collaborators None)
                            (Some pngx_file) empty_world = (inr r, w') /\
             status r = 200)
    by (eexists; eexists; split; [vm_compute; reflexivity | reflexivity]).
  destruct Hrun as (r & w' & Hrun & Hok).
  exists r, w'. split; [exact Hrun|]. split; [exact Hok|].
  split; [reflexivity|].
  destruct (upload_then_list (collab := collaborators None)
              pngx_file empty_world w' r Hrun Hok)
    as (j & key & items & _ & _ & Hlist & _ & Hnot).
  exists key, items. split; [exact Hlist|].
  apply Hnot. reflexivity.
Defined.

(** ** Deleting, then serving *)

Lemma delete_then_serve_witness :
  find_by_id "a" (storage_search (Collaborators := collaborators None)
                                 "a" (uploads three_objects))
  = Some {| name := "a.png"; content := "A"; contentType := "image/png" |} /\
  get_file "a.png" (snd (delete_image (collab := collaborators None)
                                      "a" three_objects))
  = (inr (res_json 404 (error_body "File not found")),
     snd (delete_image (collab := collaborators None) "a" three_objects)).
Proof.
  assert (H : find_by_id "a" (storage_search (Collaborators := collaborators None)
                                             "a" (uploads three_objects))
              = Some {| name := "a.png"; content := "A";
                        contentType := "image/png" |}) by reflexivity.
  split; [exact H|].
  exact (proj1 (delete_then_serve (collab := collaborators None)
                  "a" three_objects _ H)).
Defined.

(** ** Accounts *)

Lemma two_accounts_emails : NoDup (map email (users two_accounts)).
Proof. simpl. repeat constructor; simpl; intuition discriminate. Qed.

Lemma two_accounts_ids : NoDup (map id (users two_accounts)).
Proof. simpl. repeat constructor; simpl; intuition discriminate. Qed.

(** Ann's token, signed at second 1, opens her profile at second 5. *)
Lemma profile_of_valid_token_witness :
  has_char " " (jwt_sign (collab := collaborators None) 1%N "s3cret" 1000%N)
  = false /\
  get_me (collab := collaborators None)
         (Some ("Bearer " ++ jwt_sign (collab := collaborators None)
                                      1%N "s3cret" 1000%N))
         5000%N two_accounts
  = (inr (res_json 200
            (JObj [("id", JNum 1); ("username", JStr "ann");
                   ("full_name", JStr "Ann"); ("role", JStr "user");
                   ("bio", JNull); ("updated_at", JNull)])), two_accounts).
Proof.
  split; [exact (demo_token_no_space 1%N 1000%N)|].
  apply (profile_of_valid_token (collab := collaborators None)
           (jwt_sign (collab := collaborators None) 1%N "s3cret" 1000%N)
           5000%N two_accounts
           {| userId := 1%N; iat := 1%N; exp := 3601%N |} ann
           (demo_token_no_space 1%N 1000%N)).
  - vm_compute. reflexivity.
  - reflexivity.
Defined.

Lemma register_refusals_witness :
  body_email (credentials "" "pw") = Some "" /\
  register (collab := collaborators None) (credentials "" "pw") two_accounts
  = (inr (res_json 400 (error_body "Email and password required")), two_accounts) /\
  single (filter (fun x => String.eqb (email x) "ann@x.com") (users two_accounts))
  = Some ann /\
  register (collab := collaborators None) (credentials "ann@x.com" "pw")
           two_accounts
  = (inr (res_json 409 (error_body "Email already exists")), two_accounts).
Proof.
  split; [reflexivity|]. split.
  - apply (proj1 (register_refusals (collab := collaborators None)
                    (credentials "" "pw") two_accounts)).
    right; left; reflexivity.
  - split; [reflexivity|].
    apply (proj2 (register_refusals (collab := collaborators None)
                    (credentials "ann@x.com" "pw") two_accounts)
                 "ann@x.com" "pw" ann); try reflexivity; discriminate.
Defined.

Lemma register_stores_witness :
  exists r w',
    register (collab := collaborators None)
             {| body_email := Some "cy@x.com"; body_username := None;
                body_full_name := None; body_role := Some "root";
                body_password := Some "pw" |} two_accounts = (inr r, w') /\
    status r = 201 /\
    exists u, users w' = (users two_accounts ++ [u])%list /\
              email u = "cy@x.com" /\ role u = "user" /\ username u = "cy".
Proof.
  assert (Hrun : exists r w',
             register (collab := collaborators None)
                      {| body_email := Some "cy@x.com"; body_username := None;
                         body_full_name := None; body_role := Some "root";
                         body_password := Some "pw" |} two_accounts
             = (inr r, w') /\ status r = 201)
    by (eexists; eexists; split; [vm_compute; reflexivity | reflexivity]).
  destruct Hrun as (r & w' & Hrun & Hok).
  exists r, w'. split; [exact Hrun|]. split; [exact Hok|].
  destruct (register_stores (collab := collaborators None) _ _ _ _ Hrun Hok)
    as (mail & plain & u & Hm & _ & Hu & _ & He & _ & _ & _ & Hrole & Hname & _).
  assert (Hmail : mail = "cy@x.com") by (cbn in Hm; now injection Hm).
  exists u. split; [exact Hu|]. split; [now rewrite He|]. split.
  - apply (Hrole "root" eq_refl). simpl. intuition discriminate.
  - rewrite (Hname (or_introl eq_refl)), Hmail. reflexivity.
Defined.

Lemma emails_stay_unique_witness :
  NoDup (map email (users two_accounts)) /\
  NoDup (map email
             (users (snd (register (collab := collaborators None)
                                   (credentials "cy@x.com" "pw") two_accounts)))).
Proof.
  split; [exact two_accounts_emails|].
  exact (emails_stay_unique (collab := collaborators None)
           (credentials "cy@x.com" "pw") two_accounts two_accounts_emails).
Defined.

Lemma register_then_login_witness :
  exists r w',
    register (collab := collaborators None) (credentials "cy@x.com" "pw")
             two_accounts = (inr r, w') /\
    status r = 201 /\
    exists u,
      login (collab := collaborators None) (credentials "cy@x.com" "pw")
            9000%N w'
      = (inr (res_json 200
                (JObj [("token",
                        JStr (jwt_sign (collab := collaborators None)
                                       (id u) "s3cret" 9000%N))])), w').
Proof.
  assert (Hrun : exists r w',
             register (collab := collaborators None)
                      (credentials "cy@x.com" "pw") two_accounts
             = (inr r, w') /\ status r = 201)
    by (eexists; eexists; split; [vm_compute; reflexivity | reflexivity]).
  destruct Hrun as (r & w' & Hrun & Hok).
  exists r, w'. split; [exact Hrun|]. split; [exact Hok|].
  destruct (register_then_login (collab := collaborators None)
              (credentials "cy@x.com" "pw") two_accounts w' r "pw" 9000%N
              two_accounts_emails Hrun Hok eq_refl eq_refl)
    as (u & _ & _ & Hlogin); [discriminate|].
  exists u. exact Hlogin.
Defined.

Lemma register_twice_witness :
  exists r w',
    register (collab := collaborators None) (credentials "cy@x.com" "pw")
             two_accounts = (inr r, w') /\
    status r = 201 /\
    register (collab := collaborators None) (credentials "cy@x.com" "other") w'
    = (inr (res_json 409 (error_body "Email already exists")), w').
Proof.
  assert (Hrun : exists r w',
             register (collab := collaborators None)
                      (credentials "cy@x.com" "pw") two_accounts
             = (inr r, w') /\ status r = 201)
    by (eexists; eexists; split; [vm_compute; reflexivity | reflexivity]).
  destruct Hrun as (r & w' & Hrun & Hok).
  exists r, w'. split; [exact Hrun|]. split; [exact Hok|].
  apply (register_twice (collab := collaborators None)
           (credentials "cy@x.com" "pw") (credentials "cy@x.com" "other")
           two_accounts w' r "cy@x.com" "other"
           two_accounts_emails Hrun Hok eq_refl eq_refl eq_refl).
  discriminate.
Defined.

Lemma login_then_gate_witness :
  exists r,
    fst (login (collab := collaborators None) (credentials "ann@x.com" "secret")
               1000%N two_accounts) = inr r /\
    status r = 200 /\
    exists token,
      sent r = Json (JObj [("token", JStr token)]) /\
      authenticateToken (collab := collaborators None)
                        (Some ("Bearer " ++ token)) 5000%N two_accounts
      = (inr (Continue
                (JObj [("id", JNum 1); ("email", JStr "ann@x.com");
                       ("username", JStr "ann"); ("full_name", JStr "Ann");
                       ("role", JStr "user")])), two_accounts).
Proof.
  assert (Hrun : exists r,
             fst (login (collab := collaborators None)
                        (credentials "ann@x.com" "secret") 1000%N two_accounts)
             = inr r /\ status r = 200)
    by (eexists; split; [vm_compute; reflexivity | reflexivity]).
  destruct Hrun as (r & Hrun & Hok).
  exists r. split; [exact Hrun|]. split; [exact Hok|].
  destruct (login_then_gate (collab := collaborators None)
              (credentials "ann@x.com" "secret") 1000%N two_accounts r
              "ann@x.com" decode_encode encode_not_empty
              (fun uid => demo_token_no_space uid 1000%N)
              two_accounts_ids eq_refl Hrun Hok)
    as (u & token & Hin & Hmail & Hsent & Hgate & _).
  exists token. split; [exact Hsent|].
  rewrite (Hgate 5000%N eq_refl).
  destruct Hin as [<- | [<- | []]]; [reflexivity | discriminate Hmail].
Defined.

End MoreRuns.
